(** * blackletter: planner, redaction geometry and opinion splitter

    A shallow embedding of [blackletter/core/planner.py],
    [blackletter/core/redactor.py] and [blackletter/core/extractor.py],
    with the properties the design document states about them.

    Conventions of the embedding.
    - Python [int] is [Z]; Python [float] is an exact rational [Q]
      (rounding, infinities and NaN are outside the model).  [int(x)] is
      truncation toward zero.
    - A [dict] used as a map is a [gmap]; a [dict] used as a record is a
      Rocq [Record] whose fields are the keys.  A variable that may hold
      [None] is an [option].
    - The document engine and the text collaborators are observed through
      the calls issued to them: a page is the list of calls it received.
    - A raised exception is a value of [PyError]; statements that mutate a
      page before an exception keep that mutation. *)

From Stdlib Require Import ZArith QArith Qminmax Qround String Ascii List Lia Bool.
From Stdlib Require Import Permutation Sorted DecimalString DecimalPos DecimalN.
From stdpp Require Import base gmap strings list.
Import ListNotations.

Local Open Scope Z_scope.
Local Open Scope string_scope.
Local Open Scope list_scope.

(** ** Python built-ins used by the three modules *)

Module Py.

Inductive PyError : Type :=
| TypeError
| AttributeError
| IndexError
| ZeroDivisionError.

Inductive Result (A : Type) : Type :=
| Ok (a : A)
| Raise (e : PyError).
Arguments Ok {A} a.
Arguments Raise {A} e.

Definition bind {A B} (r : Result A) (k : A -> Result B) : Result B :=
  match r with
  | Ok a => k a
  | Raise e => Raise e
  end.

(** [a < b] on numbers. *)
Definition ltb (a b : Q) : bool :=
  (Qnum a * Zpos (Qden b) <? Qnum b * Zpos (Qden a))%Z.

(** [a == b] on numbers. *)
Definition eqb (a b : Q) : bool := Qeq_bool a b.

(** [max(a, b)]: the first argument wins a tie. *)
Definition max (a b : Q) : Q := if ltb a b then b else a.

(** [min(a, b)]: the first argument wins a tie. *)
Definition min (a b : Q) : Q := if ltb b a then b else a.

(** [max(l)] for a non-empty list [x :: l]. *)
Definition max_list (x : Q) (l : list Q) : Q := fold_left max l x.

(** [int(x)]: truncation toward zero. *)
Definition int (x : Q) : Z := Z.quot (Qnum x) (Zpos (Qden x)).

(** [a / b] (true division). *)
Definition div (a b : Q) : Result Q :=
  if eqb b 0 then Raise ZeroDivisionError else Ok (a / b)%Q.

(** Decimal digits of a natural number. *)
Definition digits (m : N) : string :=
  NilZero.string_of_uint (N.to_uint m).

Fixpoint zeros (k : nat) : string :=
  match k with
  | O => EmptyString
  | S k' => String "0" (zeros k')
  end.

(** [format(z, "0{w}d")]: sign-aware zero padding to width [w]. *)
Definition format_0d (w : nat) (z : Z) : string :=
  if (z <? 0)%Z then
    let s := digits (Z.abs_N z) in
    String "-" (zeros (Nat.sub (Nat.sub w 1) (String.length s)) ++ s)%string
  else
    let s := digits (Z.to_N z) in
    (zeros (Nat.sub w (String.length s)) ++ s)%string.

(** Lexicographic [<] on strings, as Python compares [str]. *)
Definition str_ltb (a b : string) : bool := String.ltb a b.

End Py.

Import Py.

Notation "'try!' x ':=' c1 'in' c2" := (Py.bind c1 (fun x => c2))
  (at level 10, x name, c1 at level 100, c2 at level 200).

(** ** Data model *)

(** [coords] is the detection rectangle [x1, y1, x2, y2] in pixels. *)
Record LayoutObject : Type := mkObj {
  page_index : Z;
  label : string;
  col : string;
  y1 : Q;
  y2 : Q;
  coords : Q * Q * Q * Q
}.

Record RedactionInstruction : Type := mkInstr {
  instr_start : option LayoutObject;
  instr_end : option LayoutObject
}.

Record OpinionSpan : Type := mkSpan {
  span_n : Z;
  span_start : option LayoutObject;
  span_end : option LayoutObject;
  span_reason : string;
  span_case_name : option string
}.

(** [config.py]: the options the three modules read, with their defaults. *)
Record RedactionConfig : Type := mkConfig {
  dpi : Q;
  start_offset : Q;
  end_offset : Q;
  redaction_fill : Q * Q * Q;
  mask_color : Q * Q * Q;
  text_pad : Q;
  y_tolerance : Q;
  merge_gap : Q;
  header_top_pts : Q;
  header_gap_pts : Q;
  header_margin_pts : Q;
  header_pad_x : Q;
  header_pad_y : Q;
  header_y_tol : Q
}.

Definition default_config : RedactionConfig := {|
  dpi := 200;
  start_offset := 0;
  end_offset := 0;
  redaction_fill := (2 # 10, 2 # 10, 2 # 10)%Q;
  mask_color := (1, 1, 1)%Q;
  text_pad := (15 # 10)%Q;
  y_tolerance := 3;
  merge_gap := (25 # 10)%Q;
  header_top_pts := 40;
  header_gap_pts := 2;
  header_margin_pts := 120;
  header_pad_x := 2;
  header_pad_y := 1;
  header_y_tol := 3
|}.

(** ** Stable sorting

    [sorted(l, key=k)] and [l.sort(key=k)] are stable: elements are ordered
    by [<] on their keys and elements with equal keys keep their order.
    Insertion from the right, placing an element before the first one whose
    key is not smaller, computes that order. *)

Section StableSort.
Context {A : Type} (lt : A -> A -> bool).

Fixpoint insert_by (x : A) (l : list A) : list A :=
  match l with
  | [] => [x]
  | y :: l' => if lt y x then y :: insert_by x l' else x :: y :: l'
  end.

Definition sorted_by (l : list A) : list A := fold_right insert_by [] l.
End StableSort.

(** ** Phase 2: the opinion planner ([planner.py]) *)

Module Planner.

Inductive OpinionState : Type :=
| WAIT_CAPTION
| TRACKING
| LOCKED_UNTIL_KEY.

(** The local variables of [plan] that the state-machine loop updates,
    together with [self.opinion_idx]. *)
Record Vars : Type := mkVars {
  current_state : OpinionState;
  active_start_node : option LayoutObject;
  candidate_end_node : option LayoutObject;
  opinion_start_caption : option LayoutObject;
  redaction_instructions : list RedactionInstruction;
  opinion_spans : list OpinionSpan;
  opinion_idx : Z
}.

(** The tuple [(o["page_index"], o["col"], o["y1"])] compared with [<]:
    the first differing component decides. *)
Definition object_key_lt (a b : LayoutObject) : bool :=
  if negb (page_index a =? page_index b)%Z then (page_index a <? page_index b)%Z
  else if negb (col a =? col b)%string then Py.str_ltb (col a) (col b)
  else Py.ltb (y1 a) (y1 b).

Definition sort_objects (objs : list LayoutObject) : list LayoutObject :=
  sorted_by object_key_lt objs.

(** Lines 62-70: headers and footers per page. *)
Definition collect_step (acc : gmap Z Q * gmap Z Q) (obj : LayoutObject)
  : gmap Z Q * gmap Z Q :=
  let '(page_headers, page_footers) := acc in
  let pg := page_index obj in
  if (label obj =? "header")%string then
    (<[pg := y2 obj]> page_headers, page_footers)
  else if (label obj =? "footnotes")%string then
    let lowest :=
      match page_footers !! pg with
      | Some f => Py.min f (y1 obj)
      | None => y1 obj
      end in
    (page_headers, <[pg := lowest]> page_footers)
  else acc.

Definition collect (objs : list LayoutObject) : gmap Z Q * gmap Z Q :=
  fold_left collect_step objs (∅, ∅).

(** [_record_opinion_span]: returns without effect when [start] or [end]
    is missing. *)
Definition _record_opinion_span (v : Vars)
    (start_ end_ : option LayoutObject) (reason : string) : Vars :=
  match start_, end_ with
  | Some _, Some _ =>
      let idx := (opinion_idx v + 1)%Z in
      {| current_state := current_state v;
         active_start_node := active_start_node v;
         candidate_end_node := candidate_end_node v;
         opinion_start_caption := opinion_start_caption v;
         redaction_instructions := redaction_instructions v;
         opinion_spans := opinion_spans v ++
           [ {| span_n := idx; span_start := start_; span_end := end_;
                span_reason := reason; span_case_name := None |} ];
         opinion_idx := idx |}
  | _, _ => v
  end.

Definition drives (l : string) : bool :=
  ((l =? "caption") || (l =? "line") || (l =? "headmatter") || (l =? "Key"))%string.

(** One iteration of the loop at lines 73-125. *)
Definition step (v : Vars) (obj : LayoutObject) : Vars :=
  let l := label obj in
  if negb (drives l) then v
  else
    match current_state v with
    | LOCKED_UNTIL_KEY =>
        if (l =? "Key")%string then
          let v1 := _record_opinion_span v (opinion_start_caption v)
                      (Some obj) "caption->Key" in
          {| current_state := WAIT_CAPTION;
             active_start_node := active_start_node v1;
             candidate_end_node := candidate_end_node v1;
             opinion_start_caption := None;
             redaction_instructions := redaction_instructions v1;
             opinion_spans := opinion_spans v1;
             opinion_idx := opinion_idx v1 |}
        else v
    | WAIT_CAPTION =>
        if (l =? "caption")%string then
          {| current_state := TRACKING;
             active_start_node := Some obj;
             candidate_end_node := candidate_end_node v;
             opinion_start_caption := Some obj;
             redaction_instructions := redaction_instructions v;
             opinion_spans := opinion_spans v;
             opinion_idx := opinion_idx v |}
        else v
    | TRACKING =>
        if (l =? "line")%string then
          {| current_state := LOCKED_UNTIL_KEY;
             active_start_node := active_start_node v;
             candidate_end_node := candidate_end_node v;
             opinion_start_caption := opinion_start_caption v;
             redaction_instructions := redaction_instructions v ++
               [ {| instr_start := active_start_node v;
                    instr_end := Some obj |} ];
             opinion_spans := opinion_spans v;
             opinion_idx := opinion_idx v |}
        else if (l =? "headmatter")%string then
          match candidate_end_node v with
          | None =>
              {| current_state := TRACKING;
                 active_start_node := active_start_node v;
                 candidate_end_node := Some obj;
                 opinion_start_caption := opinion_start_caption v;
                 redaction_instructions := redaction_instructions v;
                 opinion_spans := opinion_spans v;
                 opinion_idx := opinion_idx v |}
          | Some _ => v
          end
        else if (l =? "Key")%string then
          let v1 := _record_opinion_span v (opinion_start_caption v)
                      (Some obj) "caption->Key" in
          let instrs :=
            match candidate_end_node v1 with
            | Some e =>
                redaction_instructions v1 ++
                  [ {| instr_start := active_start_node v1;
                       instr_end := Some e |} ]
            | None => redaction_instructions v1
            end in
          {| current_state := WAIT_CAPTION;
             active_start_node := None;
             candidate_end_node := None;
             opinion_start_caption := None;
             redaction_instructions := instrs;
             opinion_spans := opinion_spans v1;
             opinion_idx := opinion_idx v1 |}
        else v
    end.

(** The variables as initialised at lines 50-59. *)
Definition init (idx : Z) : Vars :=
  {| current_state := WAIT_CAPTION;
     active_start_node := None;
     candidate_end_node := None;
     opinion_start_caption := None;
     redaction_instructions := [];
     opinion_spans := [];
     opinion_idx := idx |}.

Definition run (v : Vars) (objs : list LayoutObject) : Vars :=
  fold_left step objs v.

(** [_assign_case_names], lines 157-164: [COL_ORDER.get(col, 99)] and the
    sort key of a span.  [span.get("start", {})] yields the stored value,
    so a stored [None] makes the following [.get] fail. *)
Definition COL_ORDER (c : string) : Z :=
  if (c =? "LEFT")%string then 0
  else if (c =? "RIGHT")%string then 1
  else 99.

Definition sort_key (sp : OpinionSpan) : Result (Z * Z * Q) :=
  match span_start sp with
  | None => Raise AttributeError
  | Some s => Ok (page_index s, COL_ORDER (col s), y1 s)
  end.

Definition span_key_lt (a b : Z * Z * Q) : bool :=
  let '(pa, ca, ya) := a in
  let '(pb, cb, yb) := b in
  if negb (pa =? pb)%Z then (pa <? pb)%Z
  else if negb (ca =? cb)%Z then (ca <? cb)%Z
  else Py.ltb ya yb.

(** [opinion_spans.sort(key=sort_key)]: every key is computed first. *)
Fixpoint decorate (spans : list OpinionSpan)
  : Result (list ((Z * Z * Q) * OpinionSpan)) :=
  match spans with
  | [] => Ok []
  | sp :: rest =>
      try! k := sort_key sp in
      try! rest' := decorate rest in
      Ok ((k, sp) :: rest')
  end.

Definition sort_spans (spans : list OpinionSpan) : Result (list OpinionSpan) :=
  try! ks := decorate spans in
  Ok (map snd (sorted_by (fun a b => span_key_lt (fst a) (fst b)) ks)).

Definition case_name_of (first_page counter : Z) : string :=
  (Py.format_0d 4 first_page ++ "-" ++ Py.format_0d 2 counter)%string.

Definition set_case_name (sp : OpinionSpan) (name : string) : OpinionSpan :=
  {| span_n := span_n sp; span_start := span_start sp;
     span_end := span_end sp; span_reason := span_reason sp;
     span_case_name := Some name |}.

(** Lines 168-173: the naming loop with its [page_counter] dictionary. *)
Fixpoint name_loop (page_start : Z) (page_counter : gmap Z Z)
    (spans : list OpinionSpan) : Result (list OpinionSpan) :=
  match spans with
  | [] => Ok []
  | sp :: rest =>
      match span_start sp with
      | None => Raise TypeError
      | Some s =>
          let first_page := (page_index s + page_start)%Z in
          let counter := (default 0%Z (page_counter !! first_page) + 1)%Z in
          try! rest' := name_loop page_start
                          (<[first_page := counter]> page_counter) rest in
          Ok (set_case_name sp (case_name_of first_page counter) :: rest')
      end
  end.

Definition _assign_case_names (opinion_spans : list OpinionSpan)
    (page_start : Z) : Result (list OpinionSpan) :=
  match opinion_spans with
  | [] => Ok []
  | _ =>
      try! sorted := sort_spans opinion_spans in
      name_loop page_start ∅ sorted
  end.

Record PlanOutput : Type := mkPlanOutput {
  out_instructions : list RedactionInstruction;
  out_spans : list OpinionSpan;
  out_page_headers : gmap Z Q;
  out_page_footers : gmap Z Q;
  out_opinion_idx : Z
}.

Section Plan.
(** [BoxFilter.filter_overlapping_boxes(objs, overlap_threshold=0.6)]
    lives in [blackletter/utils/filtering.py]; the planner only relies
    on it returning a list of objects. *)
Variable filter_overlapping_boxes : list LayoutObject -> list LayoutObject.

(** [plan]: [idx] is [self.opinion_idx] on entry. *)
Definition plan (idx : Z) (global_objects : list LayoutObject)
    (first_page : Z) : Result PlanOutput :=
  let global_objects := filter_overlapping_boxes global_objects in
  let global_objects := sort_objects global_objects in
  let '(page_headers, page_footers) := collect global_objects in
  let v := run (init idx) global_objects in
  try! spans := _assign_case_names (opinion_spans v) first_page in
  Ok {| out_instructions := redaction_instructions v;
        out_spans := spans;
        out_page_headers := page_headers;
        out_page_footers := page_footers;
        out_opinion_idx := opinion_idx v |}.
End Plan.

End Planner.

(** ** The document engine as seen by the pipeline

    A page records the calls made on it, oldest first.  The line-level
    redactor ([blackletter/utils/text.py]) registers its regions on the
    page it is given; the page records the request. *)

Inductive Call : Type :=
| redact_text_lines_in_window (win_pdf : Q * Q * Q * Q) (pad y_tol merge_gap : Q)
| add_redact_annot (rect : Q * Q * Q * Q) (fill : Q * Q * Q)
| apply_redactions.

(** [page.rect.width], [page.rect.height] and the calls received. *)
Record Page : Type := mkPage {
  rect_width : Q;
  rect_height : Q;
  calls : list Call
}.

Definition issue (pg : Page) (cs : list Call) : Page :=
  {| rect_width := rect_width pg; rect_height := rect_height pg;
     calls := calls pg ++ cs |}.

(** A statement run for its calls: the calls it issued and the exception
    that stopped it, if any. *)
Definition Effect : Type := list Call * option PyError.

Fixpoint for_each {A : Type} (body : A -> Effect) (l : list A) : Effect :=
  match l with
  | [] => ([], None)
  | x :: rest =>
      match body x with
      | (cs, Some e) => (cs, Some e)
      | (cs, None) =>
          let '(cs', e') := for_each body rest in (cs ++ cs', e')
      end
  end.

(** ** Phase 3: the redaction geometry engine ([redactor.py]) *)

Module Redactor.

Section Instruction.
(** The parameters of [_apply_instruction] that [do_column_box]
    captures. *)
Variables (config : RedactionConfig) (page_idx : Z) (ceiling_y : Q)
  (limit_bottom_left limit_bottom_right : Q)
  (LEFT_X1 LEFT_X2 RIGHT_X1 RIGHT_X2 : Q) (scale_x scale_y : Q).

(** Lines 134-155. *)
Definition do_column_box (y_top_px y_bottom_px : Q) (is_left : bool)
  : list Call :=
  let y_top_px := Py.int (Py.max ceiling_y y_top_px) in
  let max_y_px := if is_left then limit_bottom_left else limit_bottom_right in
  let y_bottom_px := Py.int (Py.min max_y_px y_bottom_px) in
  if (y_bottom_px <=? y_top_px)%Z then []
  else
    let xx1_px := if is_left then LEFT_X1 else RIGHT_X1 in
    let xx2_px := if is_left then LEFT_X2 else RIGHT_X2 in
    let x0_pdf := (xx1_px * scale_x)%Q in
    let x1_pdf := (xx2_px * scale_x)%Q in
    let y0_pdf := (inject_Z y_top_px * scale_y)%Q in
    let y1_pdf := (inject_Z y_bottom_px * scale_y)%Q in
    [ redact_text_lines_in_window (x0_pdf, y0_pdf, x1_pdf, y1_pdf)
        (text_pad config) (y_tolerance config) (merge_gap config) ].

(** Lines 160-191, once [start] and [end] are known to overlap the
    page. *)
Definition page_cases (start_ end_ : LayoutObject) : list Call :=
  let s_col := (col start_ =? "LEFT")%string in
  let e_col := (col end_ =? "LEFT")%string in
  if ((page_index start_ =? page_idx) && (page_index end_ =? page_idx))%Z
  then
    let sy := (y2 start_ + start_offset config)%Q in
    let ey := (y1 end_ + end_offset config)%Q in
    if Bool.eqb s_col e_col then do_column_box sy ey s_col
    else do_column_box sy 9999 true ++ do_column_box 0 ey false
  else if ((page_index start_ <? page_idx) && (page_index end_ =? page_idx))%Z
  then
    let ey := (y1 end_ + end_offset config)%Q in
    if e_col then do_column_box 0 ey true
    else do_column_box 0 9999 true ++ do_column_box 0 ey false
  else if ((page_index start_ =? page_idx) && (page_index end_ >? page_idx))%Z
  then
    let sy := (y2 start_ + start_offset config)%Q in
    if s_col
    then do_column_box sy 9999 true ++ do_column_box 0 9999 false
    else do_column_box sy 9999 false
  else if ((page_index start_ <? page_idx) && (page_index end_ >? page_idx))%Z
  then do_column_box 0 9999 true ++ do_column_box 0 9999 false
  else [].

(** Lines 128-191.  Line 131 subscripts [end] first and [start] only
    when the first test fails; subscripting [None] raises. *)
Definition _apply_instruction (instr : RedactionInstruction) : Effect :=
  match instr_end instr with
  | None => ([], Some TypeError)
  | Some end_ =>
      if (page_index end_ <? page_idx)%Z then ([], None)
      else
        match instr_start instr with
        | None => ([], Some TypeError)
        | Some start_ =>
            if (page_index start_ >? page_idx)%Z then ([], None)
            else (page_cases start_ end_, None)
        end
  end.
End Instruction.

(** Lines 206-220: the bottom limits [(limit_bottom_left,
    limit_bottom_right)] after the footnote loop. *)
Definition footnote_step (lims : Q * Q) (o : LayoutObject) : Q * Q :=
  let '(limit_bottom_left, limit_bottom_right) := lims in
  if (label o =? "footnotes")%string then
    if (col o =? "LEFT")%string then
      (Py.min limit_bottom_left (y1 o), limit_bottom_right)
    else if (col o =? "RIGHT")%string then
      (limit_bottom_left, Py.min limit_bottom_right (y1 o))
    else
      (Py.min limit_bottom_left (y1 o), Py.min limit_bottom_right (y1 o))
  else lims.

Definition bottom_limits (objs_on_page : list LayoutObject) (img_h : Q)
  : Q * Q :=
  let DEFAULT_BOTTOM := (img_h - 60)%Q in
  fold_left footnote_step objs_on_page (DEFAULT_BOTTOM, DEFAULT_BOTTOM).

(** Lines 222-228: the header ceiling. *)
Definition header_ceiling (objs_on_page : list LayoutObject) (img_h : Q) : Q :=
  let ceiling_y := 90%Q in
  let headers := List.filter (fun o => (label o =? "header")%string) objs_on_page in
  match map y2 headers with
  | [] => ceiling_y
  | h :: hs =>
      let max_header_bottom := Py.max_list h hs in
      if Py.ltb max_header_bottom (img_h / 3)%Q
      then Py.max ceiling_y (max_header_bottom + 5)%Q
      else ceiling_y
  end.

(** Lines 231-240: the column bounds of a page, with the fallback tuple. *)
Definition column_bounds (page_columns_px : gmap Z (Q * Q * Q * Q * Q))
    (page_idx : Z) (img_h : Q) : Q * Q * Q * Q * Q :=
  match page_columns_px !! page_idx with
  | Some t => t
  | None =>
      (30%Q,
       inject_Z (Py.int (img_h / 2 - 5)%Q),
       inject_Z (Py.int (img_h / 2 + 5)%Q),
       inject_Z (Py.int (img_h - 30)%Q),
       inject_Z (Py.int (img_h / 2)%Q))
  end.

Definition _apply_body_redactions (config : RedactionConfig)
    (instructions : list RedactionInstruction) (page_idx : Z)
    (objs_on_page : list LayoutObject) (img_h : Q)
    (page_columns_px : gmap Z (Q * Q * Q * Q * Q)) (scale_x scale_y : Q)
  : Effect :=
  let '(limit_bottom_left, limit_bottom_right) :=
    bottom_limits objs_on_page img_h in
  let ceiling_y := header_ceiling objs_on_page img_h in
  let '(LEFT_X1, LEFT_X2, RIGHT_X1, RIGHT_X2, split_x) :=
    column_bounds page_columns_px page_idx img_h in
  for_each
    (_apply_instruction config page_idx ceiling_y limit_bottom_left
       limit_bottom_right LEFT_X1 LEFT_X2 RIGHT_X1 RIGHT_X2 scale_x scale_y)
    instructions.

(** Lines 316-328. *)
Definition _add_redaction_box (x1 y1 x2 y2 : Z) (scale_x scale_y : Q)
  : list Call :=
  if ((y2 <=? y1) || (x2 <=? x1))%Z then []
  else
    [ add_redact_annot
        (inject_Z x1 * scale_x, inject_Z y1 * scale_y,
         inject_Z x2 * scale_x, inject_Z y2 * scale_y)%Q
        (2 # 10, 2 # 10, 2 # 10)%Q ].

Definition int_coords (o : LayoutObject) : Z * Z * Z * Z :=
  let '(a, b, c, d) := coords o in (Py.int a, Py.int b, Py.int c, Py.int d).

Definition solid_label (l : string) : bool :=
  ((l =? "line") || (l =? "Key") || (l =? "brackets") || (l =? "order"))%string.

(** Lines 274-284: one iteration; the accumulator is the calls issued so
    far and [header_coord]. *)
Definition object_step (scale_x scale_y : Q)
    (acc : list Call * option (Z * Z * Z * Z)) (o : LayoutObject)
  : list Call * option (Z * Z * Z * Z) :=
  let '(cs, header_coord) := acc in
  let cs :=
    if solid_label (label o) then
      let '(c0, c1, c2, c3) := int_coords o in
      cs ++ _add_redaction_box c0 c1 c2 c3 scale_x scale_y
    else cs in
  let header_coord :=
    if (label o =? "header")%string then Some (int_coords o) else header_coord in
  (cs, header_coord).

(** Lines 77-79: the scale of a page from its entry
    [(pdf_w, pdf_h, img_w, img_h)] of [page_dimensions]. *)
Definition scales (pdf_w pdf_h img_w img_h : Q) : Result (Q * Q) :=
  try! scale_x := Py.div pdf_w img_w in
  try! scale_y := Py.div pdf_h img_h in
  Ok (scale_x, scale_y).

Section Collaborators.
(** [HeaderProcessor.redaction_bbox_for_header(page_pl, top_pts,
    gap_pts, y_tol, margin_pts, pad_x, pad_y)] lives in
    [blackletter/utils/header.py]; the page is named by its index. *)
Variable redaction_bbox_for_header :
  nat -> Q -> Q -> Q -> Q -> Q -> Q -> option (Q * Q * Q * Q).

(** Lines 271-313. *)
Definition _apply_object_redactions (config : RedactionConfig)
    (page_no : nat) (objs_on_page : list LayoutObject)
    (scale_x scale_y : Q) : list Call :=
  let '(cs, header_coord) :=
    fold_left (object_step scale_x scale_y) objs_on_page ([], None) in
  let hdr := redaction_bbox_for_header page_no
               (header_top_pts config) (header_gap_pts config)
               (header_y_tol config) (header_margin_pts config)
               (header_pad_x config) (header_pad_y config) in
  match hdr with
  | Some (x0, y0, x1, y1) =>
      let ry2 :=
        match header_coord with
        | Some (_, _, _, c3) => (inject_Z c3 * scale_y)%Q
        | None => y1
        end in
      cs ++ [ add_redact_annot (x0, y0, x1, Py.max y1 ry2)
                (redaction_fill config) ]
  | None =>
      match header_coord with
      | Some (c0, c1, c2, c3) =>
          cs ++ _add_redaction_box c0 c1 c2 c3 scale_x scale_y
      | None => cs
      end
  end.

Section Redact.
Variables (config : RedactionConfig)
  (redaction_instructions : list RedactionInstruction)
  (global_objects : list LayoutObject)
  (page_dimensions : gmap Z (Q * Q * Q * Q))
  (page_columns_px : gmap Z (Q * Q * Q * Q * Q)).

(** Lines 71-101: the body of the page loop. *)
Definition redact_page (page_no : nat) (page_fitz : Page)
  : Page * option PyError :=
  let page_idx := Z.of_nat page_no in
  match page_dimensions !! page_idx with
  | None => (page_fitz, None)
  | Some (pdf_w, pdf_h, img_w, img_h) =>
      match scales pdf_w pdf_h img_w img_h with
      | Raise e => (page_fitz, Some e)
      | Ok (scale_x, scale_y) =>
          let objs_on_page :=
            List.filter (fun o => (page_index o =? page_idx)%Z) global_objects in
          match _apply_body_redactions config redaction_instructions
                  page_idx objs_on_page img_h page_columns_px
                  scale_x scale_y with
          | (cs, Some e) => (issue page_fitz cs, Some e)
          | (cs, None) =>
              (issue page_fitz
                 (cs ++ _apply_object_redactions config page_no
                          objs_on_page scale_x scale_y
                     ++ [apply_redactions]),
               None)
          end
      end
  end.

(** [for page_idx in range(len(doc))], from page [page_no] on. *)
Fixpoint redact_from (page_no : nat) (doc : list Page)
  : list Page * option PyError :=
  match doc with
  | [] => ([], None)
  | page_fitz :: rest =>
      match redact_page page_no page_fitz with
      | (pg, Some e) => (pg :: rest, Some e)
      | (pg, None) =>
          let '(rest', e') := redact_from (S page_no) rest in
          (pg :: rest', e')
      end
  end.

(** [redact]: the document after the page loop, and the exception
    that interrupted it, if any. *)
Definition redact (doc : list Page) : list Page * option PyError :=
  redact_from 0 doc.
End Redact.
End Collaborators.

End Redactor.

(** ** Phase 4: the opinion splitter ([extractor.py]) *)

Module Extractor.

Section Masking.
(** The parameters of [_apply_opinion_masking] that its local
    functions capture. *)
Variables (config : RedactionConfig)
  (page_columns_px : gmap Z (Q * Q * Q * Q * Q))
  (page_headers page_footers : gmap Z Q) (scale : Q).

(** Lines 105-109: [if y_px] is false for [None] and for zero. *)
Definition get_footer_pt (pg_idx : Z) (page_height_pt : Q) : Q :=
  match page_footers !! pg_idx with
  | Some y_px =>
      if Py.eqb y_px 0 then page_height_pt
      else Py.min page_height_pt (y_px * scale)%Q
  | None => page_height_pt
  end.

(** Lines 111-114. *)
Definition get_header_pt (pg_idx : Z) : Q :=
  let y_px := default 0%Q (page_headers !! pg_idx) in
  Py.max 0 (y_px * scale)%Q.

(** Lines 116-119. *)
Definition safe_redact (rect : Q * Q * Q * Q) : list Call :=
  let '(x0, y0, x1, y1) := rect in
  if Py.ltb y0 y1 && Py.ltb x0 x1
  then [ add_redact_annot rect (mask_color config) ]
  else [].

(** Lines 121-126. *)
Definition get_split_pt (pg_idx : Z) (page_width_pt : Q) : Q :=
  match page_columns_px !! pg_idx with
  | Some (_, _, _, _, split_x_px) => (split_x_px * scale)%Q
  | None => (page_width_pt / 2)%Q
  end.

(** Lines 129-149: the masks registered on the start page. *)
Definition start_page_masks (p_start : Page) (start_pg_idx : Z)
    (start_y_px : Q) (start_col : string) : list Call :=
  let W_start := rect_width p_start in
  let H_start := rect_height p_start in
  let split_start := get_split_pt start_pg_idx W_start in
  let sy_pt := (start_y_px * scale)%Q in
  let hy_start := (get_header_pt start_pg_idx + 2)%Q in
  let fy_start := get_footer_pt start_pg_idx H_start in
  if (start_col =? "LEFT")%string then
    safe_redact (0%Q, hy_start, split_start, Py.min sy_pt fy_start)
    ++ safe_redact (split_start, hy_start, W_start, fy_start)
  else if (start_col =? "RIGHT")%string then
    safe_redact (0%Q, hy_start, split_start, fy_start)
    ++ safe_redact (split_start, hy_start, W_start, Py.min sy_pt fy_start)
  else [].

(** Lines 152-164: the masks registered on the end page. *)
Definition end_page_masks (p_end : Page) (end_pg_idx : Z)
    (end_y_px : Q) (end_col : string) : list Call :=
  let W_end := rect_width p_end in
  let H_end := rect_height p_end in
  let split_end := get_split_pt end_pg_idx W_end in
  let ey_pt := (end_y_px * scale)%Q in
  let hy_end := (get_header_pt end_pg_idx + 2)%Q in
  let fy_end := get_footer_pt end_pg_idx H_end in
  if (end_col =? "LEFT")%string then
    safe_redact (0%Q, ey_pt, split_end, fy_end)
    ++ safe_redact (split_end, hy_end, W_end, fy_end)
  else if (end_col =? "RIGHT")%string then
    safe_redact (split_end, ey_pt, W_end, fy_end)
  else [].

(** [page.f()] on the page at position [i] of a document. *)
Definition on_page (i : nat) (f : Page -> list Call) (doc : list Page)
  : list Page :=
  match doc !! i with
  | Some pg => <[i := issue pg (f pg)]> doc
  | None => doc
  end.

(** [_apply_opinion_masking]: [doc_out[0]] and [doc_out[-1]] are the
    same page object when the document has one page; both raise on an
    empty document. *)
Definition _apply_opinion_masking (doc_out : list Page)
    (start_pg_idx end_pg_idx : Z) (start_y_px end_y_px : Q)
    (start_col end_col : string) : Result (list Page) :=
  match doc_out with
  | [] => Raise IndexError
  | _ =>
      let last := Nat.pred (length doc_out) in
      let d1 := on_page 0
                  (fun p => start_page_masks p start_pg_idx start_y_px start_col)
                  doc_out in
      let d2 := on_page last
                  (fun p => end_page_masks p end_pg_idx end_y_px end_col)
                  d1 in
      Ok (map (fun pg => issue pg [apply_redactions]) d2)
  end.
End Masking.

Section Split.
(** [doc_out.insert_pdf(src, from_page=a, to_page=b)] on an empty
    [doc_out] is the document engine's page-range copy. *)
Variable insert_pdf : list Page -> Z -> Z -> list Page.

Variables (config : RedactionConfig)
  (page_columns_px : gmap Z (Q * Q * Q * Q * Q))
  (page_headers page_footers : gmap Z Q).

(** Line 45: one factor for every page and both axes. *)
Definition split_scale : Result Q := Py.div 72 (dpi config).

(** Lines 50-76 for one span: the file name and the masked document. *)
Definition split_one (src : list Page) (scale : Q) (item : OpinionSpan)
  : Result (string * list Page) :=
  match span_start item, span_end item with
  | Some start_, Some end_ =>
      let start_pg_idx := page_index start_ in
      let end_pg_idx := page_index end_ in
      let case_name :=
        match span_case_name item with
        | Some nm => nm
        | None => ("opinion_" ++ Py.format_0d 3 (span_n item))%string
        end in
      let doc_out := insert_pdf src start_pg_idx end_pg_idx in
      let '(_, start_y_px, _, _) := coords start_ in
      let '(_, _, _, end_y_px) := coords end_ in
      try! masked := _apply_opinion_masking config page_columns_px
                       page_headers page_footers scale doc_out
                       start_pg_idx end_pg_idx start_y_px end_y_px
                       (col start_) (col end_) in
      Ok ((case_name ++ ".pdf")%string, masked)
  | _, _ => Raise TypeError
  end.

Fixpoint split_all (src : list Page) (scale : Q) (spans : list OpinionSpan)
  : Result (list (string * list Page)) :=
  match spans with
  | [] => Ok []
  | item :: rest =>
      try! one := split_one src scale item in
      try! others := split_all src scale rest in
      Ok (one :: others)
  end.

(** [split_and_mask_opinions]: the files written to the [masked]
    directory. *)
Definition split_and_mask_opinions (src : list Page)
    (opinion_spans : list OpinionSpan)
  : Result (list (string * list Page)) :=
  try! scale := split_scale in
  split_all src scale opinion_spans.
End Split.

End Extractor.

(** ** Sample pages

    Detections of a 1700 x 2200 pixel rendering (US Letter at 200 dpi) with
    the left column at x = 100..800 and the right one at x = 900..1600. *)

Module Samples.

Definition obj (page : Z) (lbl column : string) (top bottom : Q) : LayoutObject :=
  {| page_index := page; label := lbl; col := column; y1 := top; y2 := bottom;
     coords := if (column =? "LEFT")%string then (100, top, 800, bottom)%Q
               else (900, top, 1600, bottom)%Q |}.

Definition caption1 : LayoutObject := obj 0 "caption" "LEFT" 100 130.
Definition headmatter1 : LayoutObject := obj 0 "headmatter" "LEFT" 300 420.
Definition line1 : LayoutObject := obj 0 "line" "LEFT" 600 604.
Definition key1 : LayoutObject := obj 0 "Key" "LEFT" 900 930.
Definition caption2 : LayoutObject := obj 0 "caption" "RIGHT" 180 200.
Definition key2 : LayoutObject := obj 0 "Key" "RIGHT" 700 730.
Definition caption3 : LayoutObject := obj 1 "caption" "LEFT" 200 230.
Definition key3 : LayoutObject := obj 1 "Key" "LEFT" 800 830.
Definition header0 : LayoutObject := obj 0 "header" "LEFT" 40 80.


Definition span (n : Z) (s e : LayoutObject) : OpinionSpan :=
  {| span_n := n; span_start := Some s; span_end := Some e;
     span_reason := "caption->Key"; span_case_name := None |}.

Definition keep_all (objs : list LayoutObject) : list LayoutObject := objs.

Definition no_header_text (page_no : nat) (top_pts gap_pts y_tol margin_pts
    pad_x pad_y : Q) : option (Q * Q * Q * Q) := None.

Definition blank_page : Page :=
  {| rect_width := 612; rect_height := 792; calls := [] |}.

Definition letter_dimensions : gmap Z (Q * Q * Q * Q) :=
  {[ 0%Z := (612, 792, 1700, 2200)%Q ]}.

Definition two_columns : gmap Z (Q * Q * Q * Q * Q) :=
  {[ 0%Z := (100, 800, 900, 1600, 850)%Q ]}.

Definition copy_range (src : list Page) (a b : Z) : list Page :=
  take (Z.to_nat (b - a + 1)) (drop (Z.to_nat a) src).

End Samples.

(** * Properties *)

(** ** Numbers *)

Lemma ltb_spec (a b : Q) : reflect (a < b)%Q (Py.ltb a b).
Proof.
  unfold Py.ltb, Qlt.
  destruct (Qnum a * Z.pos (Qden b) <? Qnum b * Z.pos (Qden a))%Z eqn:E;
    constructor; [apply Z.ltb_lt in E | apply Z.ltb_ge in E]; lia.
Qed.

Lemma py_max_cases (a b : Q) :
  (Py.max a b = a /\ (b <= a)%Q) \/ (Py.max a b = b /\ (a < b)%Q).
Proof.
  unfold Py.max. destruct (ltb_spec a b) as [H | H]; [right | left]; split;
    auto. now apply Qnot_lt_le.
Qed.

Lemma py_min_cases (a b : Q) :
  (Py.min a b = a /\ (a <= b)%Q) \/ (Py.min a b = b /\ (b < a)%Q).
Proof.
  unfold Py.min. destruct (ltb_spec b a) as [H | H]; [right | left]; split;
    auto. now apply Qnot_lt_le.
Qed.

(** ** Zero-padded decimal formatting can be read back *)

Definition digits_value (s : string) : option N :=
  option_map N.of_uint (NilEmpty.uint_of_string s).

Lemma digits_value_digits (m : N) : digits_value (Py.digits m) = Some m.
Proof.
  unfold digits_value, Py.digits, NilZero.string_of_uint.
  assert (Hnn : N.to_uint m <> Decimal.Nil).
  { destruct m; simpl; [discriminate | apply DecimalPos.Unsigned.to_uint_nonnil]. }
  destruct (N.to_uint m) eqn:E; try contradiction;
    rewrite <- E, NilEmpty.usu; simpl; now rewrite DecimalN.Unsigned.of_to.
Qed.

Lemma digits_value_zeros (k : nat) (s : string) (m : N) :
  digits_value s = Some m -> digits_value (Py.zeros k ++ s)%string = Some m.
Proof.
  intros H. induction k as [| k IH]; simpl; auto.
  unfold digits_value in *. simpl.
  destruct (NilEmpty.uint_of_string (Py.zeros k ++ s)%string); simpl in *;
    [exact IH | discriminate].
Qed.

Lemma format_0d_value (w : nat) (z : Z) :
  (0 <= z)%Z -> digits_value (Py.format_0d w z) = Some (Z.to_N z).
Proof.
  intros Hz. unfold Py.format_0d.
  destruct (Z.ltb_spec z 0); [lia |].
  apply digits_value_zeros, digits_value_digits.
Qed.

Lemma format_0d_inj (w : nat) (a b : Z) :
  (0 <= a)%Z -> (0 <= b)%Z -> Py.format_0d w a = Py.format_0d w b -> a = b.
Proof.
  intros Ha Hb E.
  pose proof (format_0d_value w a Ha) as Va.
  rewrite E, (format_0d_value w b Hb) in Va.
  injection Va as Va. lia.
Qed.

Lemma string_app_cancel (p a b : string) :
  (p ++ a)%string = (p ++ b)%string -> a = b.
Proof.
  induction p as [| ch p IH]; simpl; auto.
  intros [= H]. auto.
Qed.

(** ** Stable sorting *)

Section StableSortFacts.
Context {A : Type} (lt : A -> A -> bool).

Lemma insert_by_perm (x : A) (l : list A) :
  Permutation (insert_by lt x l) (x :: l).
Proof.
  induction l as [| y l IH]; simpl; [reflexivity |].
  destruct (lt y x); [| reflexivity].
  rewrite IH. apply perm_swap.
Qed.

Lemma sorted_by_perm (l : list A) : Permutation (sorted_by lt l) l.
Proof.
  induction l as [| x l IH]; simpl; [reflexivity |].
  rewrite insert_by_perm. now constructor.
Qed.

(** A list whose neighbours are already in order is left as it is. *)
Fixpoint in_order (l : list A) : Prop :=
  match l with
  | x :: ((y :: _) as l') => lt y x = false /\ in_order l'
  | _ => True
  end.

Lemma sorted_by_in_order (l : list A) : in_order l -> sorted_by lt l = l.
Proof.
  induction l as [| x l IH]; [reflexivity |].
  destruct l as [| y l]; [reflexivity |].
  intros [Hxy Hl]. change (sorted_by lt (x :: y :: l))
    with (insert_by lt x (sorted_by lt (y :: l))).
  rewrite (IH Hl). simpl. now rewrite Hxy.
Qed.
End StableSortFacts.

(** ** The planner *)

Module PlannerFacts.
Import Planner Samples.

Definition instr_complete (i : RedactionInstruction) : Prop :=
  is_Some (instr_start i) /\ is_Some (instr_end i).

Definition span_complete (sp : OpinionSpan) : Prop :=
  is_Some (span_start sp) /\ is_Some (span_end sp).

(** What the loop maintains: while tracking, both start trackers are set;
    while locked, the caption of the open opinion is set; everything
    emitted so far is complete. *)
Record Inv (v : Vars) : Prop := mkInv {
  inv_tracking :
    current_state v = TRACKING ->
    is_Some (active_start_node v) /\ is_Some (opinion_start_caption v);
  inv_locked :
    current_state v = LOCKED_UNTIL_KEY -> is_Some (opinion_start_caption v);
  inv_instrs : Forall instr_complete (redaction_instructions v);
  inv_spans : Forall span_complete (opinion_spans v)
}.

Lemma record_skips (v : Vars) (s e : option LayoutObject) (r : string) :
  s = None \/ e = None -> _record_opinion_span v s e r = v.
Proof. intros [-> | ->]; [| destruct s]; reflexivity. Qed.

Lemma record_spans_complete v s e r :
  Forall span_complete (opinion_spans v) ->
  Forall span_complete (opinion_spans (_record_opinion_span v s e r)).
Proof.
  intros H. destruct s as [s |], e as [e |]; simpl; auto.
  apply Forall_app; split; auto.
  constructor; [| constructor]. split; simpl; eauto.
Qed.

Lemma record_keeps_rest v s e r :
  let v' := _record_opinion_span v s e r in
  current_state v' = current_state v /\
  active_start_node v' = active_start_node v /\
  candidate_end_node v' = candidate_end_node v /\
  opinion_start_caption v' = opinion_start_caption v /\
  redaction_instructions v' = redaction_instructions v.
Proof. destruct s, e; simpl; auto. Qed.

Lemma init_inv idx : Inv (init idx).
Proof. constructor; simpl; try discriminate; constructor. Qed.

Ltac keep_inv :=
  constructor; simpl; intros; try congruence; try discriminate; auto.

Ltac one_more :=
  apply Forall_app; split; auto;
  constructor; [| constructor]; split; simpl; eauto.

Lemma step_inv v obj : Inv v -> Inv (step v obj).
Proof.
  intros [Ht Hl Hi Hs]. unfold step.
  destruct (drives (label obj)); simpl; [| keep_inv].
  destruct (current_state v) eqn:Est.
  - destruct (label obj =? "caption")%string; keep_inv; eauto.
  - destruct (Ht eq_refl) as [Ha Hc].
    destruct (label obj =? "line")%string; [keep_inv; one_more |].
    destruct (label obj =? "headmatter")%string.
    { destruct (candidate_end_node v) eqn:Ec; keep_inv. }
    destruct (label obj =? "Key")%string; [| keep_inv].
    pose proof (record_keeps_rest v (opinion_start_caption v) (Some obj)
                  "caption->Key") as (_ & Ea & Ee & _ & Ei).
    simpl in Ea, Ee, Ei.
    constructor; simpl; try discriminate.
    + rewrite Ee, Ei, Ea. destruct (candidate_end_node v); auto. one_more.
    + now apply record_spans_complete.
  - destruct (label obj =? "Key")%string; [| keep_inv].
    pose proof (record_keeps_rest v (opinion_start_caption v) (Some obj)
                  "caption->Key") as (_ & _ & _ & _ & Ei).
    simpl in Ei.
    constructor; simpl; try discriminate.
    + now rewrite Ei.
    + now apply record_spans_complete.
Qed.

Lemma run_inv objs : forall v, Inv v -> Inv (run v objs).
Proof.
  induction objs as [| o objs IH]; intros v Hv; simpl; auto.
  apply IH. now apply step_inv.
Qed.

(** *** Case naming never fails on complete spans *)

Definition first_page_of (page_start : Z) (sp : OpinionSpan) : option Z :=
  match span_start sp with
  | Some s => Some (page_index s + page_start)%Z
  | None => None
  end.

(** [o] is [s] with a case name filled in. *)
Definition named_from (o s : OpinionSpan) : Prop :=
  exists nm, o = set_case_name s nm.

Lemma decorate_total spans :
  Forall (fun sp => is_Some (span_start sp)) spans ->
  exists ks, decorate spans = Ok ks /\ map snd ks = spans.
Proof.
  induction 1 as [| sp spans [s Hs] _ (ks & E & Hk)]; simpl; eauto.
  unfold sort_key. rewrite Hs. simpl. rewrite E. simpl.
  eexists; split; [reflexivity |]. simpl. now rewrite Hk.
Qed.

Lemma sort_spans_total spans :
  Forall (fun sp => is_Some (span_start sp)) spans ->
  exists sorted, sort_spans spans = Ok sorted /\ Permutation sorted spans.
Proof.
  intros H. destruct (decorate_total spans H) as (ks & E & Hk).
  unfold sort_spans. rewrite E. simpl. eexists; split; [reflexivity |].
  rewrite <- Hk. apply Permutation_map, sorted_by_perm.
Qed.

Lemma name_loop_total page_start spans :
  Forall (fun sp => is_Some (span_start sp)) spans ->
  forall m, exists out,
    name_loop page_start m spans = Ok out /\ Forall2 named_from out spans.
Proof.
  induction 1 as [| sp spans [s Hs] _ IH]; intros m; simpl.
  - eexists; split; [reflexivity | constructor].
  - rewrite Hs.
    destruct (IH (<[(page_index s + page_start)%Z :=
                     (default 0%Z (m !! (page_index s + page_start)%Z) + 1)%Z]> m))
      as (out & E & Hout).
    rewrite E. simpl. eexists; split; [reflexivity |].
    constructor; auto. eexists; reflexivity.
Qed.

Lemma named_from_complete o s :
  named_from o s -> span_complete s -> span_complete o.
Proof. intros [nm ->] H. exact H. Qed.

Lemma assign_total spans page_start :
  Forall span_complete spans ->
  exists out sorted,
    _assign_case_names spans page_start = Ok out /\
    sort_spans spans = Ok sorted /\
    Permutation sorted spans /\
    Forall2 named_from out sorted.
Proof.
  intros H.
  assert (Hs : Forall (fun sp => is_Some (span_start sp)) spans).
  { eapply Forall_impl; [exact H |]. now intros sp [? _]. }
  destruct (sort_spans_total spans Hs) as (sorted & E & Hp).
  assert (Hs' : Forall (fun sp => is_Some (span_start sp)) sorted).
  { eapply Permutation_Forall; [symmetry; exact Hp | exact Hs]. }
  destruct (name_loop_total page_start sorted Hs' ∅) as (out & En & Hn).
  destruct spans as [| sp spans].
  - simpl in E. injection E as <-. exists [], []. simpl.
    repeat split; auto.
  - exists out, sorted. unfold _assign_case_names. rewrite E. simpl.
    auto.
Qed.

Lemma Forall2_named_complete out sorted :
  Forall2 named_from out sorted ->
  Forall span_complete sorted -> Forall span_complete out.
Proof.
  induction 1 as [| o s out sorted Hn _ IH]; intros Hs; constructor.
  - inversion Hs; subst. eapply named_from_complete; eauto.
  - inversion Hs; subst. auto.
Qed.

(** C2. Whatever objects the planner is given and whatever the overlap
    filter keeps, [plan] returns, and every redaction instruction and
    every opinion span it returns has a start object and an end object.
    An attempt to record a span whose start or end is missing changes
    nothing: no span is added, the counter is not advanced and nothing
    is raised. *)
Theorem plan_emits_complete
    (filter_overlapping_boxes : list LayoutObject -> list LayoutObject)
    (idx : Z) (global_objects : list LayoutObject) (first_page : Z) :
  (exists out,
     plan filter_overlapping_boxes idx global_objects first_page = Ok out /\
     Forall (fun i => exists s e,
               instr_start i = Some s /\ instr_end i = Some e)
            (out_instructions out) /\
     Forall (fun sp => exists s e,
               span_start sp = Some s /\ span_end sp = Some e)
            (out_spans out)) /\
  (forall v e r, _record_opinion_span v None e r = v) /\
  (forall v s r, _record_opinion_span v s None r = v).
Proof.
  split; [| split; intros; apply record_skips; auto].
  unfold plan.
  destruct (collect (sort_objects (filter_overlapping_boxes global_objects)))
    as [hd ft].
  pose proof (run_inv (sort_objects (filter_overlapping_boxes global_objects))
                (init idx) (init_inv idx)) as [_ _ Hi Hs].
  destruct (assign_total _ first_page Hs) as (out & sorted & E & _ & Hp & Hn).
  rewrite E. simpl. eexists; split; [reflexivity |]. simpl. split.
  - eapply Forall_impl; [exact Hi |].
    intros i [[s Hs1] [e He1]]. eauto.
  - assert (Hc : Forall span_complete out).
    { eapply Forall2_named_complete; eauto.
      eapply Permutation_Forall; [symmetry; exact Hp | exact Hs]. }
    eapply Forall_impl; [exact Hc |].
    intros sp [[s Hs1] [e He1]]. eauto.
Qed.

(** *** Runs of the state machine on given sequences *)

(** The rows of the transition table, one lemma each. *)

Lemma step_other_label v o : drives (label o) = false -> step v o = v.
Proof. intros H. unfold step. now rewrite H. Qed.

Lemma step_wait_caption v o :
  current_state v = WAIT_CAPTION -> label o = "caption" ->
  step v o =
  {| current_state := TRACKING;
     active_start_node := Some o;
     candidate_end_node := candidate_end_node v;
     opinion_start_caption := Some o;
     redaction_instructions := redaction_instructions v;
     opinion_spans := opinion_spans v;
     opinion_idx := opinion_idx v |}.
Proof. intros Hs Hl. unfold step. now rewrite Hl, Hs. Qed.

Lemma step_wait_other v o :
  current_state v = WAIT_CAPTION -> label o <> "caption" -> step v o = v.
Proof.
  intros Hs Hl. unfold step. rewrite Hs.
  apply String.eqb_neq in Hl. rewrite Hl.
  now destruct (negb (drives (label o))).
Qed.

Lemma step_tracking_line v o :
  current_state v = TRACKING -> label o = "line" ->
  step v o =
  {| current_state := LOCKED_UNTIL_KEY;
     active_start_node := active_start_node v;
     candidate_end_node := candidate_end_node v;
     opinion_start_caption := opinion_start_caption v;
     redaction_instructions := redaction_instructions v ++
       [ {| instr_start := active_start_node v; instr_end := Some o |} ];
     opinion_spans := opinion_spans v;
     opinion_idx := opinion_idx v |}.
Proof. intros Hs Hl. unfold step. now rewrite Hl, Hs. Qed.

Lemma step_tracking_headmatter v o :
  current_state v = TRACKING -> label o = "headmatter" ->
  candidate_end_node v = None ->
  step v o =
  {| current_state := TRACKING;
     active_start_node := active_start_node v;
     candidate_end_node := Some o;
     opinion_start_caption := opinion_start_caption v;
     redaction_instructions := redaction_instructions v;
     opinion_spans := opinion_spans v;
     opinion_idx := opinion_idx v |}.
Proof. intros Hs Hl Hc. unfold step. now rewrite Hl, Hs, Hc. Qed.

Lemma step_tracking_key v o s :
  current_state v = TRACKING -> label o = "Key" ->
  opinion_start_caption v = Some s ->
  step v o =
  {| current_state := WAIT_CAPTION;
     active_start_node := None;
     candidate_end_node := None;
     opinion_start_caption := None;
     redaction_instructions :=
       match candidate_end_node v with
       | Some e => redaction_instructions v ++
                     [ {| instr_start := active_start_node v;
                          instr_end := Some e |} ]
       | None => redaction_instructions v
       end;
     opinion_spans := opinion_spans v ++
       [ {| span_n := opinion_idx v + 1; span_start := Some s;
            span_end := Some o; span_reason := "caption->Key";
            span_case_name := None |} ];
     opinion_idx := opinion_idx v + 1 |}.
Proof. intros Hs Hl Hc. unfold step. now rewrite Hl, Hs, Hc. Qed.

Lemma step_locked_key v o s :
  current_state v = LOCKED_UNTIL_KEY -> label o = "Key" ->
  opinion_start_caption v = Some s ->
  step v o =
  {| current_state := WAIT_CAPTION;
     active_start_node := active_start_node v;
     candidate_end_node := candidate_end_node v;
     opinion_start_caption := None;
     redaction_instructions := redaction_instructions v;
     opinion_spans := opinion_spans v ++
       [ {| span_n := opinion_idx v + 1; span_start := Some s;
            span_end := Some o; span_reason := "caption->Key";
            span_case_name := None |} ];
     opinion_idx := opinion_idx v + 1 |}.
Proof. intros Hs Hl Hc. unfold step. now rewrite Hl, Hs, Hc. Qed.

Lemma step_locked_other v o :
  current_state v = LOCKED_UNTIL_KEY -> label o <> "Key" -> step v o = v.
Proof.
  intros Hs Hl. unfold step. rewrite Hs.
  apply String.eqb_neq in Hl. rewrite Hl.
  now destruct (negb (drives (label o))).
Qed.

(** Rewrites the step on object [o] with the row [row] and then reads the
    fields of the record it produces. *)
Ltac fire row o :=
  erewrite (row _ o) by first [ reflexivity | eassumption ];
  cbn [current_state active_start_node candidate_end_node
       opinion_start_caption redaction_instructions opinion_spans
       opinion_idx init app].

Lemma object_key_lt_false (a b : LayoutObject) :
  page_index b = page_index a -> col b = col a -> (y1 a <= y1 b)%Q ->
  object_key_lt b a = false.
Proof.
  intros Hp Hc Hy. unfold object_key_lt.
  rewrite Hp, Hc, Z.eqb_refl, String.eqb_refl. simpl.
  destruct (ltb_spec (y1 b) (y1 a)) as [Hlt |]; auto.
  exfalso. exact (Qlt_not_le _ _ Hlt Hy).
Qed.

Lemma collect_step_other acc o :
  (label o =? "header")%string = false ->
  (label o =? "footnotes")%string = false ->
  collect_step acc o = acc.
Proof. intros H1 H2. destruct acc. unfold collect_step. now rewrite H1, H2. Qed.

Definition span_of (idx : Z) (s e : LayoutObject) (nm : option string)
  : OpinionSpan :=
  {| span_n := idx; span_start := Some s; span_end := Some e;
     span_reason := "caption->Key"; span_case_name := nm |}.

Lemma assign_single idx s e page_start :
  _assign_case_names [span_of idx s e None] page_start =
  Ok [span_of idx s e
        (Some (case_name_of (page_index s + page_start) 1))].
Proof.
  unfold _assign_case_names, sort_spans. simpl.
  now rewrite lookup_empty.
Qed.

(** C3. Given a caption, a headmatter and a Key of one page and one
    column, in that reading order, with no line between them (and an
    overlap filter that keeps the three), [plan] returns exactly one
    redaction instruction, from the caption to the headmatter, and
    exactly one opinion span, from the caption to the Key with reason
    "caption->Key". *)
Theorem plan_caption_headmatter_key
    (filter_overlapping_boxes : list LayoutObject -> list LayoutObject)
    (idx first_page : Z) (c h k : LayoutObject) :
  filter_overlapping_boxes [c; h; k] = [c; h; k] ->
  label c = "caption" -> label h = "headmatter" -> label k = "Key" ->
  page_index h = page_index c -> page_index k = page_index c ->
  col h = col c -> col k = col c ->
  (y1 c <= y1 h)%Q -> (y1 h <= y1 k)%Q ->
  plan filter_overlapping_boxes idx [c; h; k] first_page =
  Ok {| out_instructions :=
          [ {| instr_start := Some c; instr_end := Some h |} ];
        out_spans :=
          [ {| span_n := idx + 1; span_start := Some c;
               span_end := Some k; span_reason := "caption->Key";
               span_case_name :=
                 Some (case_name_of (page_index c + first_page) 1) |} ];
        out_page_headers := ∅;
        out_page_footers := ∅;
        out_opinion_idx := idx + 1 |}.
Proof.
  intros Hf Lc Lh Lk Ph Pk Ch Ck Ych Yhk. unfold plan. rewrite Hf.
  assert (Hs : sort_objects [c; h; k] = [c; h; k]).
  { apply sorted_by_in_order. simpl. repeat split.
    - now apply object_key_lt_false.
    - apply object_key_lt_false; congruence. }
  rewrite Hs.
  assert (Hc : collect [c; h; k] = (∅, ∅)).
  { unfold collect. simpl.
    rewrite !collect_step_other; auto;
      rewrite ?Lc, ?Lh, ?Lk; reflexivity. }
  rewrite Hc.
  assert (Hr : run (init idx) [c; h; k] =
               {| current_state := WAIT_CAPTION;
                  active_start_node := None;
                  candidate_end_node := None;
                  opinion_start_caption := None;
                  redaction_instructions :=
                    [ {| instr_start := Some c; instr_end := Some h |} ];
                  opinion_spans := [ span_of (idx + 1) c k None ];
                  opinion_idx := idx + 1 |}).
  { unfold run. cbn [fold_left].
    fire step_wait_caption c. fire step_tracking_headmatter h.
    fire step_tracking_key k. reflexivity. }
  rewrite Hr. cbn [opinion_spans redaction_instructions opinion_idx].
  rewrite assign_single. reflexivity.
Qed.

(** C9. Given caption1, headmatter1, line1, Key1, caption2, Key2 in
    reading order, with no headmatter between caption2 and Key2, the
    planner returns two redaction instructions: caption1 to line1 and,
    emitted by the second Key, caption2 to headmatter1.  The second Key
    also closes the second opinion span.  The end tracker set by
    headmatter1 survives the path through the locked state. *)
Theorem plan_stale_headmatter
    (filter_overlapping_boxes : list LayoutObject -> list LayoutObject)
    (idx first_page : Z) (c1 h1 l1 k1 c2 k2 : LayoutObject) :
  filter_overlapping_boxes [c1; h1; l1; k1; c2; k2] =
    [c1; h1; l1; k1; c2; k2] ->
  in_order object_key_lt [c1; h1; l1; k1; c2; k2] ->
  label c1 = "caption" -> label h1 = "headmatter" -> label l1 = "line" ->
  label k1 = "Key" -> label c2 = "caption" -> label k2 = "Key" ->
  exists out,
    plan filter_overlapping_boxes idx [c1; h1; l1; k1; c2; k2] first_page
      = Ok out /\
    out_instructions out =
      [ {| instr_start := Some c1; instr_end := Some l1 |};
        {| instr_start := Some c2; instr_end := Some h1 |} ] /\
    Permutation
      (map (fun sp => (span_n sp, span_start sp, span_end sp, span_reason sp))
           (out_spans out))
      [ (idx + 1, Some c1, Some k1, "caption->Key");
        (idx + 2, Some c2, Some k2, "caption->Key") ] /\
    run (step (step (step (step (init idx) c1) h1) l1) k1) [c2] =
      {| current_state := TRACKING;
         active_start_node := Some c2;
         candidate_end_node := Some h1;
         opinion_start_caption := Some c2;
         redaction_instructions :=
           [ {| instr_start := Some c1; instr_end := Some l1 |} ];
         opinion_spans := [ span_of (idx + 1) c1 k1 None ];
         opinion_idx := idx + 1 |}.
Proof.
  intros Hf Ho Lc1 Lh1 Ll1 Lk1 Lc2 Lk2. unfold plan. rewrite Hf.
  unfold sort_objects. rewrite (sorted_by_in_order _ _ Ho).
  destruct (collect [c1; h1; l1; k1; c2; k2]) as [hd ft].
  assert (Hr : run (init idx) [c1; h1; l1; k1; c2; k2] =
               {| current_state := WAIT_CAPTION;
                  active_start_node := None;
                  candidate_end_node := None;
                  opinion_start_caption := None;
                  redaction_instructions :=
                    [ {| instr_start := Some c1; instr_end := Some l1 |};
                      {| instr_start := Some c2; instr_end := Some h1 |} ];
                  opinion_spans :=
                    [ span_of (idx + 1) c1 k1 None;
                      span_of (idx + 1 + 1) c2 k2 None ];
                  opinion_idx := idx + 1 + 1 |}).
  { unfold run. cbn [fold_left].
    fire step_wait_caption c1. fire step_tracking_headmatter h1.
    fire step_tracking_line l1. fire step_locked_key k1.
    fire step_wait_caption c2. fire step_tracking_key k2. reflexivity. }
  rewrite Hr. cbn [opinion_spans redaction_instructions opinion_idx].
  set (spans := [span_of (idx + 1) c1 k1 None;
                 span_of (idx + 1 + 1) c2 k2 None]).
  assert (Hsp : Forall span_complete spans).
  { repeat constructor; simpl; eauto. }
  destruct (assign_total spans first_page Hsp)
    as (out & sorted & E & _ & Hp & Hn).
  rewrite E. simpl. eexists; split; [reflexivity |]. simpl.
  split; [reflexivity |]. split.
  - assert (Hm : map (fun sp => (span_n sp, span_start sp, span_end sp,
                                 span_reason sp)) out =
                 map (fun sp => (span_n sp, span_start sp, span_end sp,
                                 span_reason sp)) sorted).
    { clear -Hn. induction Hn as [| o s out sorted [nm ->] _ IH]; simpl;
        [reflexivity | now rewrite IH]. }
    rewrite Hm. rewrite Hp. unfold spans. simpl.
    replace (idx + 1 + 1) with (idx + 2) by lia. reflexivity.
  - unfold run. cbn [fold_left].
    fire step_wait_caption c1. fire step_tracking_headmatter h1.
    fire step_tracking_line l1. fire step_locked_key k1.
    fire step_wait_caption c2. reflexivity.
Qed.

(** *** Case names *)

Definition in_group (page_start p : Z) (sp : OpinionSpan) : Prop :=
  first_page_of page_start sp = Some p.

#[local] Instance in_group_dec page_start p sp :
  Decision (in_group page_start p sp).
Proof. unfold in_group. apply _. Defined.

(** The names [case_name_of p (base + 1)], ..., [case_name_of p (base + k)]. *)
Definition names_from (p base : Z) (k : nat) : list (option string) :=
  map (fun i => Some (case_name_of p (base + Z.of_nat i))) (seq 1 k).

Lemma names_from_S p base k :
  names_from p base (S k) =
  Some (case_name_of p (base + 1)) :: names_from p (base + 1) k.
Proof.
  unfold names_from. simpl. f_equal.
  rewrite <- seq_shift, map_map. apply map_ext. intros i.
  do 2 f_equal. lia.
Qed.

Lemma name_loop_groups page_start spans :
  forall m out, name_loop page_start m spans = Ok out ->
  forall p,
    map span_case_name (filter (in_group page_start p) out) =
    names_from p (default 0 (m !! p))
      (length (filter (in_group page_start p) out)).
Proof.
  induction spans as [| sp spans IH]; intros m out H p; simpl in H.
  - injection H as <-. reflexivity.
  - destruct (span_start sp) as [s |] eqn:Es; [| discriminate].
    set (fp := page_index s + page_start) in *.
    set (c := default 0 (m !! fp) + 1) in *.
    destruct (name_loop page_start (<[fp := c]> m) spans) as [rest |] eqn:E;
      simpl in H; [| discriminate].
    injection H as <-.
    specialize (IH _ _ E p).
    rewrite filter_cons.
    destruct (decide (in_group page_start p
                        (set_case_name sp (case_name_of fp c)))) as [Hin | Hout].
    + unfold in_group, first_page_of in Hin. simpl in Hin. rewrite Es in Hin.
      injection Hin as Hp. fold fp in Hp. subst p.
      simpl. rewrite names_from_S. f_equal.
      rewrite IH, lookup_insert_eq. reflexivity.
    + assert (Hne : fp <> p).
      { intros <-. apply Hout. unfold in_group, first_page_of. simpl.
        rewrite Es. reflexivity. }
      rewrite IH, lookup_insert_ne by exact Hne. reflexivity.
Qed.

Lemma case_name_of_inj (p a b : Z) :
  (0 <= a)%Z -> (0 <= b)%Z -> case_name_of p a = case_name_of p b -> a = b.
Proof.
  intros Ha Hb E. unfold case_name_of in E.
  apply string_app_cancel in E. apply (string_app_cancel "-") in E.
  now apply format_0d_inj in E.
Qed.

Lemma names_from_NoDup (p base : Z) (k : nat) :
  (0 <= base)%Z -> NoDup (names_from p base k).
Proof.
  intros Hb. unfold names_from.
  apply NoDup_fmap_2_strong; [| apply NoDup_seq].
  intros i j _ _ [= E]. apply case_name_of_inj in E; lia.
Qed.

(** C3 on the sample caption, headmatter and Key of page 0, left column. *)
Lemma plan_caption_headmatter_key_witness :
  plan keep_all 0 [caption1; headmatter1; key1] 12 =
  Ok {| out_instructions :=
          [ {| instr_start := Some caption1; instr_end := Some headmatter1 |} ];
        out_spans :=
          [ {| span_n := 0 + 1; span_start := Some caption1;
               span_end := Some key1; span_reason := "caption->Key";
               span_case_name :=
                 Some (case_name_of (page_index caption1 + 12) 1) |} ];
        out_page_headers := ∅;
        out_page_footers := ∅;
        out_opinion_idx := 0 + 1 |}.
Proof.
  apply (plan_caption_headmatter_key keep_all 0 12 caption1 headmatter1 key1);
    try reflexivity; vm_compute; discriminate.
Defined.

(** C9 on the sample objects: the second caption and Key sit in the right
    column of page 0. *)
Lemma plan_stale_headmatter_witness :
  exists out,
    plan keep_all 0 [caption1; headmatter1; line1; key1; caption2; key2] 12
      = Ok out /\
    out_instructions out =
      [ {| instr_start := Some caption1; instr_end := Some line1 |};
        {| instr_start := Some caption2; instr_end := Some headmatter1 |} ] /\
    Permutation
      (map (fun sp => (span_n sp, span_start sp, span_end sp, span_reason sp))
           (out_spans out))
      [ (0 + 1, Some caption1, Some key1, "caption->Key");
        (0 + 2, Some caption2, Some key2, "caption->Key") ] /\
    run (step (step (step (step (init 0) caption1) headmatter1) line1) key1)
        [caption2] =
      {| current_state := TRACKING;
         active_start_node := Some caption2;
         candidate_end_node := Some headmatter1;
         opinion_start_caption := Some caption2;
         redaction_instructions :=
           [ {| instr_start := Some caption1; instr_end := Some line1 |} ];
         opinion_spans := [ span_of (0 + 1) caption1 key1 None ];
         opinion_idx := 0 + 1 |}.
Proof.
  apply (plan_stale_headmatter keep_all 0 12
           caption1 headmatter1 line1 key1 caption2 key2);
    try reflexivity.
  simpl. repeat split; reflexivity.
Defined.

End PlannerFacts.

(** ** The geometry engine *)

Module RedactorFacts.
Import Redactor Samples.

(** [m] is a least element of [xs]. *)
Definition is_min (m : Q) (xs : list Q) : Prop :=
  In m xs /\ Forall (fun x => (m <= x)%Q) xs.

(** [m] is a greatest element of [xs]. *)
Definition is_max (m : Q) (xs : list Q) : Prop :=
  In m xs /\ Forall (fun x => (x <= m)%Q) xs.

(** A footnote lowers the limit of its own column, and of both columns
    when its column is neither LEFT nor RIGHT. *)
Definition lowers_left (o : LayoutObject) : bool :=
  ((label o =? "footnotes") &&
   ((col o =? "LEFT") || (negb (col o =? "LEFT") && negb (col o =? "RIGHT"))))%string.

Definition lowers_right (o : LayoutObject) : bool :=
  ((label o =? "footnotes") &&
   ((col o =? "RIGHT") || (negb (col o =? "LEFT") && negb (col o =? "RIGHT"))))%string.

Lemma is_min_push (m a b : Q) (xs : list Q) :
  is_min m (Py.min a b :: xs) -> is_min m (a :: b :: xs).
Proof.
  intros [Hin Hall]. inversion Hall as [| ? ? Hm Hxs]; subst.
  destruct (py_min_cases a b) as [[E Hab] | [E Hba]]; rewrite E in *.
  - split.
    + destruct Hin as [<- | Hin]; simpl; auto.
    + repeat constructor; auto. eapply Qle_trans; eauto.
  - split.
    + destruct Hin as [<- | Hin]; simpl; auto.
    + repeat constructor; auto.
      eapply Qle_trans; [exact Hm | now apply Qlt_le_weak].
Qed.

Lemma is_max_push (m a b : Q) (xs : list Q) :
  is_max m (Py.max a b :: xs) -> is_max m (a :: b :: xs).
Proof.
  intros [Hin Hall]. inversion Hall as [| ? ? Hm Hxs]; subst.
  destruct (py_max_cases a b) as [[E Hba] | [E Hab]]; rewrite E in *.
  - split.
    + destruct Hin as [<- | Hin]; simpl; auto.
    + repeat constructor; auto. eapply Qle_trans; eauto.
  - split.
    + destruct Hin as [<- | Hin]; simpl; auto.
    + repeat constructor; auto.
      eapply Qle_trans; [apply Qlt_le_weak; exact Hab | exact Hm].
Qed.

Lemma is_min_single (a : Q) : is_min a [a].
Proof. split; [now left | repeat constructor; apply Qle_refl]. Qed.

Lemma is_max_single (a : Q) : is_max a [a].
Proof. split; [now left | repeat constructor; apply Qle_refl]. Qed.

Lemma footnote_step_eq (l0 r0 : Q) (o : LayoutObject) :
  footnote_step (l0, r0) o =
  if (label o =? "footnotes")%string then
    if (col o =? "LEFT")%string then (Py.min l0 (y1 o), r0)
    else if (col o =? "RIGHT")%string then (l0, Py.min r0 (y1 o))
    else (Py.min l0 (y1 o), Py.min r0 (y1 o))
  else (l0, r0).
Proof. reflexivity. Qed.

Lemma footnote_fold (objs : list LayoutObject) :
  forall l0 r0,
    is_min (fst (fold_left footnote_step objs (l0, r0)))
           (l0 :: map y1 (List.filter lowers_left objs)) /\
    is_min (snd (fold_left footnote_step objs (l0, r0)))
           (r0 :: map y1 (List.filter lowers_right objs)).
Proof.
  induction objs as [| o objs IH]; intros l0 r0; cbn [fold_left List.filter].
  - split; apply is_min_single.
  - rewrite footnote_step_eq. unfold lowers_left, lowers_right.
    destruct (label o =? "footnotes")%string; simpl; [| apply IH].
    destruct (col o =? "LEFT")%string eqn:EL; simpl.
    + destruct (col o =? "RIGHT")%string eqn:ER; simpl.
      * apply String.eqb_eq in EL, ER. congruence.
      * destruct (IH (Py.min l0 (y1 o)) r0) as [HL HR].
        split; [now apply is_min_push | exact HR].
    + destruct (col o =? "RIGHT")%string eqn:ER; simpl.
      * destruct (IH l0 (Py.min r0 (y1 o))) as [HL HR].
        split; [exact HL | now apply is_min_push].
      * destruct (IH (Py.min l0 (y1 o)) (Py.min r0 (y1 o))) as [HL HR].
        split; now apply is_min_push.
Qed.

(** C6. On a page of image height [img_h] with objects [objs_on_page],
    the bottom limit of the left column is the least of [img_h - 60] and
    the top edges [y1] of the footnotes whose column is LEFT or is neither
    LEFT nor RIGHT; the bottom limit of the right column is the least of
    [img_h - 60] and the top edges of the footnotes whose column is RIGHT
    or is neither LEFT nor RIGHT. *)
Theorem bottom_limits_are_minima (objs_on_page : list LayoutObject) (img_h : Q) :
  is_min (fst (bottom_limits objs_on_page img_h))
         ((img_h - 60)%Q :: map y1 (List.filter lowers_left objs_on_page)) /\
  is_min (snd (bottom_limits objs_on_page img_h))
         ((img_h - 60)%Q :: map y1 (List.filter lowers_right objs_on_page)).
Proof. unfold bottom_limits. apply footnote_fold. Qed.

Lemma max_list_is_max (hs : list Q) :
  forall h, is_max (Py.max_list h hs) (h :: hs).
Proof.
  unfold Py.max_list.
  induction hs as [| x hs IH]; intros h; simpl.
  - apply is_max_single.
  - apply is_max_push, IH.
Qed.

Lemma is_max_unique (a b : Q) (xs : list Q) :
  is_max a xs -> is_max b xs -> (a == b)%Q.
Proof.
  intros [Ia Ha] [Ib Hb]. rewrite Forall_forall in Ha, Hb.
  apply Qle_antisym.
  - apply Hb. now apply list_elem_of_In.
  - apply Ha. now apply list_elem_of_In.
Qed.

Lemma py_max_Qmax (a b : Q) : (Py.max a b == Qmax a b)%Q.
Proof.
  destruct (py_max_cases a b) as [[E H] | [E H]]; rewrite E.
  - symmetry. now apply Q.max_l.
  - symmetry. apply Q.max_r. now apply Qlt_le_weak.
Qed.

(** C5. On a page of image height [img_h]: when the page has no header
    object the ceiling is 90; when it has, and [m] is the greatest bottom
    edge [y2] among its headers, the ceiling is [max(90, m + 5)] if
    [m < img_h / 3] and 90 otherwise. *)
Theorem header_ceiling_cases (objs_on_page : list LayoutObject) (img_h : Q) :
  let bottoms :=
    map y2 (List.filter (fun o => (label o =? "header")%string) objs_on_page) in
  (bottoms = [] -> header_ceiling objs_on_page img_h = 90%Q) /\
  (forall m, is_max m bottoms ->
     ((m < img_h / 3)%Q ->
        (header_ceiling objs_on_page img_h == Qmax 90 (m + 5))%Q) /\
     (~ (m < img_h / 3)%Q -> header_ceiling objs_on_page img_h = 90%Q)).
Proof.
  intros bottoms. unfold header_ceiling. fold bottoms.
  destruct bottoms as [| h hs]; split; try reflexivity; try discriminate.
  - intros m [[] _].
  - intros m Hm.
    pose proof (is_max_unique _ _ _ (max_list_is_max hs h) Hm) as E.
    destruct (ltb_spec (Py.max_list h hs) (img_h / 3)%Q) as [Hlt | Hge];
      split; intros H.
    + rewrite py_max_Qmax. now rewrite E.
    + exfalso. apply H. now rewrite <- E.
    + exfalso. apply Hge. now rewrite E.
    + reflexivity.
Qed.

(** *** Column-crossing instructions *)

Section Crossing.
Variables (config : RedactionConfig) (page_idx : Z) (ceiling_y : Q)
  (limit_bottom_left limit_bottom_right : Q)
  (LEFT_X1 LEFT_X2 RIGHT_X1 RIGHT_X2 : Q) (scale_x scale_y : Q).



End Crossing.

(** *** Degenerate boxes *)

(** C7, as the code has it. A column window whose height is not positive
    after clamping to the ceiling and the column's bottom limit and
    truncating to whole pixels is dropped, and a column window that is
    kept is the clamped one.  A discrete-object box is not clamped: the
    loop over the objects of a page adds, for an object labelled line,
    Key, brackets or order, the box of its detection rectangle with the
    coordinates truncated to whole pixels, and drops it exactly when the
    truncated rectangle has non-positive height or width; the same test
    guards every box handed to [_add_redaction_box], the fallback header
    box included.  Nothing is raised in either case. *)
Theorem degenerate_boxes_dropped
    (config : RedactionConfig) (ceiling_y limit_bottom_left limit_bottom_right : Q)
    (LEFT_X1 LEFT_X2 RIGHT_X1 RIGHT_X2 scale_x scale_y : Q) :
  (forall (y_top_px y_bottom_px : Q) (is_left : bool),
     let top := Py.int (Py.max ceiling_y y_top_px) in
     let bottom :=
       Py.int (Py.min (if is_left then limit_bottom_left
                       else limit_bottom_right) y_bottom_px) in
     let box :=
       do_column_box config ceiling_y limit_bottom_left limit_bottom_right
         LEFT_X1 LEFT_X2 RIGHT_X1 RIGHT_X2 scale_x scale_y
         y_top_px y_bottom_px is_left in
     ((bottom - top <= 0)%Z -> box = []) /\
     (box = [] \/
      box = [ redact_text_lines_in_window
                ((if is_left then LEFT_X1 else RIGHT_X1) * scale_x,
                 inject_Z top * scale_y,
                 (if is_left then LEFT_X2 else RIGHT_X2) * scale_x,
                 inject_Z bottom * scale_y)%Q
                (text_pad config) (y_tolerance config) (merge_gap config) ])) /\
  (forall (o : LayoutObject) (cs : list Call) (hc : option (Z * Z * Z * Z)),
     fst (object_step scale_x scale_y (cs, hc) o) =
     cs ++
     (if solid_label (label o) then
        let '(a, b, c, d) := coords o in
        if ((Py.int d - Py.int b <=? 0) || (Py.int c - Py.int a <=? 0))%Z
        then []
        else [ add_redact_annot
                 (inject_Z (Py.int a) * scale_x, inject_Z (Py.int b) * scale_y,
                  inject_Z (Py.int c) * scale_x, inject_Z (Py.int d) * scale_y)%Q
                 (2 # 10, 2 # 10, 2 # 10)%Q ]
      else [])) /\
  (forall x1 y1 x2 y2 : Z,
     _add_redaction_box x1 y1 x2 y2 scale_x scale_y = [] <->
     (y2 - y1 <= 0)%Z \/ (x2 - x1 <= 0)%Z).
Proof.
  split; [| split].
  - intros y_top_px y_bottom_px is_left top bottom box. subst box.
    unfold do_column_box. fold top. fold bottom.
    destruct (Z.leb_spec bottom top); split; auto; intros; lia.
  - intros o cs hc. unfold object_step, int_coords.
    destruct (solid_label (label o)); [| now rewrite app_nil_r].
    destruct (coords o) as [[[a b] c] d]. simpl. f_equal.
    unfold _add_redaction_box.
    destruct (Z.leb_spec (Py.int d) (Py.int b)),
             (Z.leb_spec (Py.int c) (Py.int a)),
             (Z.leb_spec (Py.int d - Py.int b) 0),
             (Z.leb_spec (Py.int c - Py.int a) 0);
      simpl; try reflexivity; lia.
  - intros x1 y1 x2 y2. unfold _add_redaction_box.
    destruct (Z.leb_spec y2 y1), (Z.leb_spec x2 x1); simpl; split; intros H';
      try reflexivity; try lia; discriminate.
Qed.

(** C7 fails for a discrete box that clamping would empty: a Key object
    at rows 10..20, above the ceiling of 90 of its page, is registered
    with its own rows, unclamped. *)
Lemma unclamped_box_registered :
  header_ceiling [obj 0 "Key" "LEFT" 10 20] 2200 = 90%Q /\
  (Py.min (fst (bottom_limits [obj 0 "Key" "LEFT" 10 20] 2200)) 20
   - Py.max (header_ceiling [obj 0 "Key" "LEFT" 10 20] 2200) 10 <= 0)%Q /\
  _apply_object_redactions no_header_text default_config 0
    [obj 0 "Key" "LEFT" 10 20] 1 1 =
  [ add_redact_annot
      (inject_Z 100 * 1, inject_Z 10 * 1, inject_Z 800 * 1, inject_Z 20 * 1)%Q
      (2 # 10, 2 # 10, 2 # 10)%Q ].
Proof. split; [reflexivity |]. split; [discriminate | reflexivity]. Qed.


(** The height is the only test [do_column_box] makes: with the left
    column at x = 400..400 an instruction from y = 200 to y = 300 sends a
    window without width to the line redactor. *)
Lemma zero_width_window_registered :
  (400 - 400 <= 0)%Q /\
  _apply_body_redactions default_config
    [ {| instr_start := Some (mkObj 0 "caption" "LEFT" 180 200 (400, 180, 400, 200)%Q);
         instr_end := Some (mkObj 0 "line" "LEFT" 300 310 (400, 300, 400, 310)%Q) |} ]
    0 [] 2200 {[ 0%Z := (400, 400, 900, 1600, 850)%Q ]} 1 1 =
  ([ redact_text_lines_in_window (400 * 1, 200 * 1, 400 * 1, 300 * 1)%Q
       (15 # 10) 3 (25 # 10) ], None).
Proof. split; [discriminate | reflexivity]. Qed.

(** *** Pages without dimensions *)

Section Frame.
Variables
  (redaction_bbox_for_header :
     nat -> Q -> Q -> Q -> Q -> Q -> Q -> option (Q * Q * Q * Q))
  (config : RedactionConfig)
  (redaction_instructions : list RedactionInstruction)
  (global_objects : list LayoutObject)
  (page_dimensions : gmap Z (Q * Q * Q * Q))
  (page_columns_px : gmap Z (Q * Q * Q * Q * Q)).

Lemma redact_page_absent (page_no : nat) (pg : Page) :
  page_dimensions !! Z.of_nat page_no = None ->
  redact_page redaction_bbox_for_header config redaction_instructions
    global_objects page_dimensions page_columns_px page_no pg = (pg, None).
Proof. intros H. unfold redact_page. now rewrite H. Qed.

Lemma redact_from_absent (doc : list Page) :
  forall (first i : nat),
    page_dimensions !! Z.of_nat (first + i) = None ->
    fst (redact_from redaction_bbox_for_header config redaction_instructions
           global_objects page_dimensions page_columns_px first doc) !! i
    = doc !! i.
Proof.
  induction doc as [| pg doc IH]; intros first i H; simpl; [reflexivity |].
  destruct (redact_page redaction_bbox_for_header config
              redaction_instructions global_objects page_dimensions
              page_columns_px first pg) as [pg' [e |]] eqn:Ep.
  - destruct i as [| i]; simpl; [| reflexivity].
    rewrite Nat.add_0_r in H. rewrite (redact_page_absent _ _ H) in Ep.
    congruence.
  - destruct (redact_from redaction_bbox_for_header config
                redaction_instructions global_objects page_dimensions
                page_columns_px (S first) doc) as [rest e'] eqn:Er.
    destruct i as [| i]; simpl.
    + rewrite Nat.add_0_r in H. rewrite (redact_page_absent _ _ H) in Ep.
      congruence.
    + specialize (IH (S first) i). rewrite Er in IH. simpl in IH.
      apply IH. rewrite <- H. do 2 f_equal. lia.
Qed.

(** C10. A page whose index is not a key of [page_dimensions] is the same
    after [redact] as before: it received no call, neither a body window,
    nor a box for a line, Key, brackets, order or header object, nor
    [apply_redactions].  This holds whether or not another page made
    [redact] raise. *)
Theorem redact_skips_pages_without_dimensions (doc : list Page) (i : nat) :
  page_dimensions !! Z.of_nat i = None ->
  fst (redact redaction_bbox_for_header config redaction_instructions
         global_objects page_dimensions page_columns_px doc) !! i
  = doc !! i.
Proof. intros H. unfold redact. now apply redact_from_absent. Qed.
End Frame.


(** C5 on a page whose only header ends at y = 80, above a third of the
    image height of 2200. *)
Lemma header_ceiling_cases_witness :
  (header_ceiling [header0; caption1] 2200 == Qmax 90 (80 + 5))%Q.
Proof.
  apply (proj2 (header_ceiling_cases [header0; caption1] 2200) 80%Q).
  - split; [now left | repeat constructor; discriminate].
  - reflexivity.
Defined.

(** C10 on a two-page document whose second page has no dimensions. *)
Lemma redact_skips_pages_without_dimensions_witness :
  fst (redact no_header_text default_config
         [ {| instr_start := Some caption1; instr_end := Some line1 |} ]
         [caption1; line1; key1; caption3; key3]
         letter_dimensions two_columns [blank_page; blank_page]) !! 1%nat
  = [blank_page; blank_page] !! 1%nat.
Proof.
  apply (redact_skips_pages_without_dimensions no_header_text default_config
           [ {| instr_start := Some caption1; instr_end := Some line1 |} ]
           [caption1; line1; key1; caption3; key3]
           letter_dimensions two_columns [blank_page; blank_page] 1%nat).
  reflexivity.
Defined.

End RedactorFacts.

(** ** Rescaling from pixels to points *)

Module ScaleFacts.
Import Redactor Extractor Samples.

Lemma div_nonzero (a b : Q) : ~ (b == 0)%Q -> Py.div a b = Ok (a / b)%Q.
Proof.
  intros Hb. unfold Py.div, Py.eqb.
  destruct (Qeq_bool b 0) eqn:E; [| reflexivity].
  apply Qeq_bool_iff in E. contradiction.
Qed.

Lemma ratio_agrees (dpi_ pdf img : Q) :
  ~ (dpi_ == 0)%Q -> ~ (img == 0)%Q ->
  (img * 72 == pdf * dpi_)%Q -> (72 / dpi_ == pdf / img)%Q.
Proof.
  intros Hd Hi H.
  apply (Qmult_inj_r _ _ (dpi_ * img)%Q).
  - intros E. apply Qmult_integral in E. tauto.
  - transitivity (img * 72)%Q; [field; exact Hd |].
    rewrite H. field. exact Hi.
Qed.

(** C8, as the code has it. The geometry engine rescales the edits of a
    page by the ratios of that page's entry [(pdf_w, pdf_h, img_w, img_h)]
    in [page_dimensions]: [pdf_w / img_w] across and [pdf_h / img_h] down.
    The opinion splitter takes no page dimensions: on every page it masks
    and on both axes it uses the one factor [72 / dpi] of the
    configuration.  The two agree on a page whose pixel size times 72
    equals its point size times [dpi]. *)
Theorem scales_per_page_and_per_run
    (redaction_bbox_for_header :
       nat -> Q -> Q -> Q -> Q -> Q -> Q -> option (Q * Q * Q * Q))
    (insert_pdf : list Page -> Z -> Z -> list Page)
    (config : RedactionConfig)
    (redaction_instructions : list RedactionInstruction)
    (global_objects : list LayoutObject)
    (page_dimensions : gmap Z (Q * Q * Q * Q))
    (page_columns_px : gmap Z (Q * Q * Q * Q * Q))
    (page_headers page_footers : gmap Z Q)
    (page_no : nat) (page_fitz : Page) (pdf_w pdf_h img_w img_h : Q)
    (src : list Page) (opinion_spans : list OpinionSpan) :
  page_dimensions !! Z.of_nat page_no = Some (pdf_w, pdf_h, img_w, img_h) ->
  ~ (img_w == 0)%Q -> ~ (img_h == 0)%Q -> ~ (dpi config == 0)%Q ->
  let objs_on_page :=
    List.filter (fun o => (page_index o =? Z.of_nat page_no)%Z) global_objects in
  redact_page redaction_bbox_for_header config redaction_instructions
    global_objects page_dimensions page_columns_px page_no page_fitz =
  match _apply_body_redactions config redaction_instructions
          (Z.of_nat page_no) objs_on_page img_h page_columns_px
          (pdf_w / img_w)%Q (pdf_h / img_h)%Q with
  | (cs, Some e) => (issue page_fitz cs, Some e)
  | (cs, None) =>
      (issue page_fitz
         (cs ++ _apply_object_redactions redaction_bbox_for_header config
                  page_no objs_on_page (pdf_w / img_w)%Q (pdf_h / img_h)%Q
             ++ [apply_redactions]), None)
  end /\
  split_and_mask_opinions insert_pdf config page_columns_px page_headers
    page_footers src opinion_spans =
  split_all insert_pdf config page_columns_px page_headers page_footers
    src (72 / dpi config)%Q opinion_spans /\
  ((img_w * 72 == pdf_w * dpi config)%Q ->
   (72 / dpi config == pdf_w / img_w)%Q) /\
  ((img_h * 72 == pdf_h * dpi config)%Q ->
   (72 / dpi config == pdf_h / img_h)%Q).
Proof.
  intros Hd Hw Hh Hdpi objs_on_page. repeat split.
  - unfold redact_page, scales. rewrite Hd.
    rewrite (div_nonzero _ _ Hw), (div_nonzero _ _ Hh). reflexivity.
  - unfold split_and_mask_opinions, split_scale.
    now rewrite (div_nonzero _ _ Hdpi).
  - now apply ratio_agrees.
  - now apply ratio_agrees.
Qed.

(** C8 fails on an A4 page of 595 x 842 points rendered at 200 dpi to
    1653 x 2339 pixels: the page's ratios are 595/1653 and 842/2339, the
    splitter's factor is 72/200, and a start edge at y = 1000 pixels is
    placed at different heights by the two. *)
Lemma splitter_scale_is_not_page_ratio :
  scales 595 842 1653 2339 = Ok (595 / 1653, 842 / 2339)%Q /\
  split_scale default_config = Ok (72 / 200)%Q /\
  ~ (72 / 200 == 595 / 1653)%Q /\
  ~ (72 / 200 == 842 / 2339)%Q /\
  ~ (1000 * (72 / 200) == 1000 * (842 / 2339))%Q.
Proof. repeat split; try reflexivity; intros H; vm_compute in H; discriminate H. Qed.

(** C8 on a US Letter page rendered at 200 dpi, where the two scales
    agree. *)
Lemma scales_per_page_and_per_run_witness :
  let objs_on_page :=
    List.filter (fun o => (page_index o =? Z.of_nat 0)%Z)
      [caption1; line1; key1] in
  redact_page no_header_text default_config
    [ {| instr_start := Some caption1; instr_end := Some line1 |} ]
    [caption1; line1; key1] letter_dimensions two_columns 0%nat blank_page =
  match _apply_body_redactions default_config
          [ {| instr_start := Some caption1; instr_end := Some line1 |} ]
          (Z.of_nat 0) objs_on_page 2200 two_columns
          (612 / 1700)%Q (792 / 2200)%Q with
  | (cs, Some e) => (issue blank_page cs, Some e)
  | (cs, None) =>
      (issue blank_page
         (cs ++ _apply_object_redactions no_header_text default_config
                  0%nat objs_on_page (612 / 1700)%Q (792 / 2200)%Q
             ++ [apply_redactions]), None)
  end /\
  split_and_mask_opinions copy_range default_config two_columns ∅ ∅
    [blank_page] [span 1 caption1 key1] =
  split_all copy_range default_config two_columns ∅ ∅
    [blank_page] (72 / dpi default_config)%Q [span 1 caption1 key1] /\
  ((1700 * 72 == 612 * dpi default_config)%Q ->
   (72 / dpi default_config == 612 / 1700)%Q) /\
  ((2200 * 72 == 792 * dpi default_config)%Q ->
   (72 / dpi default_config == 792 / 2200)%Q).
Proof.
  apply (scales_per_page_and_per_run no_header_text copy_range default_config
           [ {| instr_start := Some caption1; instr_end := Some line1 |} ]
           [caption1; line1; key1] letter_dimensions two_columns ∅ ∅
           0%nat blank_page 612 792 1700 2200
           [blank_page] [span 1 caption1 key1]);
    try reflexivity; discriminate.
Defined.

End ScaleFacts.

(** * Further properties *)

(** ** Stable sorting yields an ordered list *)

Section SortedFacts.
Context {A : Type} (lt : A -> A -> bool).

(** [a] is not after [b]. *)
Definition not_after (a b : A) : Prop := lt b a = false.

Hypothesis lt_asym : forall a b, lt a b = true -> lt b a = false.
Hypothesis not_after_trans :
  forall a b c, not_after a b -> not_after b c -> not_after a c.

Lemma insert_by_sorted (x : A) (l : list A) :
  StronglySorted not_after l -> StronglySorted not_after (insert_by lt x l).
Proof.
  induction 1 as [| y l Hl IH Hy]; simpl.
  - repeat constructor.
  - destruct (lt y x) eqn:E.
    + constructor; [exact IH |].
      eapply Permutation_Forall; [symmetry; apply insert_by_perm |].
      constructor; [now apply lt_asym | exact Hy].
    + constructor; [now constructor |].
      constructor; [exact E |].
      eapply Forall_impl; [exact Hy |].
      intros z Hz. now apply (not_after_trans x y z).
Qed.

Lemma sorted_by_sorted (l : list A) : StronglySorted not_after (sorted_by lt l).
Proof.
  induction l as [| x l IH]; simpl; [constructor |].
  now apply insert_by_sorted.
Qed.
End SortedFacts.

(** ** Order on strings *)

Lemma ascii_compare_trans (a b c : ascii) :
  Ascii.compare a b = Lt -> Ascii.compare b c = Lt -> Ascii.compare a c = Lt.
Proof.
  unfold Ascii.compare. rewrite !N.compare_lt_iff. apply N.lt_trans.
Qed.

Lemma ascii_compare_refl (a : ascii) : Ascii.compare a a = Eq.
Proof. unfold Ascii.compare. apply N.compare_refl. Qed.

Lemma string_compare_trans (a : string) :
  forall b c, String.compare a b = Lt -> String.compare b c = Lt ->
              String.compare a c = Lt.
Proof.
  induction a as [| x a IH]; intros [| y b] [| z c]; simpl;
    try discriminate; auto.
  destruct (Ascii.compare x y) eqn:Exy; try discriminate;
    destruct (Ascii.compare y z) eqn:Eyz; try discriminate; intros H1 H2.
  - apply Ascii.compare_eq_iff in Exy, Eyz. subst.
    rewrite ascii_compare_refl. now apply (IH b c).
  - apply Ascii.compare_eq_iff in Exy. subst. now rewrite Eyz.
  - apply Ascii.compare_eq_iff in Eyz. subst. now rewrite Exy.
  - now rewrite (ascii_compare_trans x y z Exy Eyz).
Qed.

(** ** More on the planner *)

Module PlannerMore.
Import Planner PlannerFacts Samples.

(** [a] does not come after [b] in reading order: by page, then by column
    name, then by top edge. *)
Definition reading_le (a b : LayoutObject) : Prop :=
  (page_index a < page_index b)%Z \/
  (page_index a = page_index b /\
   (String.compare (col a) (col b) = Lt \/
    (col a = col b /\ (y1 a <= y1 b)%Q))).

Lemma str_ltb_false_ne (a b : string) :
  a <> b -> (Py.str_ltb b a = false <-> String.compare a b = Lt).
Proof.
  intros Hne. unfold Py.str_ltb, String.ltb.
  rewrite (String.compare_antisym a b).
  destruct (String.compare b a) eqn:E; simpl; split; try discriminate; auto.
  apply String.compare_eq_iff in E. congruence.
Qed.

Lemma object_key_lt_false_iff (a b : LayoutObject) :
  object_key_lt b a = false <-> reading_le a b.
Proof.
  unfold object_key_lt, reading_le.
  destruct (Z.eqb_spec (page_index b) (page_index a)) as [Ep | Np]; simpl.
  - destruct (String.eqb_spec (col b) (col a)) as [Ec | Nc]; simpl.
    + destruct (ltb_spec (y1 b) (y1 a)) as [Hlt | Hge]; split.
      * discriminate.
      * intros [Hp | [_ [Hc | [_ Hy]]]]; [lia | |].
        -- rewrite Ec in Hc.
           assert (String.compare (col a) (col a) = Eq) as Hr.
           { clear. induction (col a) as [| x s IH]; simpl; auto.
             now rewrite ascii_compare_refl. }
           congruence.
        -- exfalso. exact (Qlt_not_le _ _ Hlt Hy).
      * intros _. right. split; [auto |]. right. split; [auto |].
        now apply Qnot_lt_le.
      * reflexivity.
    + rewrite (str_ltb_false_ne (col a) (col b)) by congruence. split.
      * intros H. right. split; auto.
      * intros [Hp | [_ [Hc | [Hc _]]]]; [lia | auto | congruence].
  - rewrite Z.ltb_ge. split.
    + intros H. left. lia.
    + intros [Hp | [Hp _]]; [lia | congruence].
Qed.

Lemma string_compare_lt_irrefl (a : string) : String.compare a a <> Lt.
Proof.
  induction a as [| x s IH]; simpl; [discriminate |].
  now rewrite ascii_compare_refl.
Qed.

Lemma reading_le_trans (a b c : LayoutObject) :
  reading_le a b -> reading_le b c -> reading_le a c.
Proof.
  unfold reading_le.
  intros [Hab | [Pab Hab]] [Hbc | [Pbc Hbc]]; try (left; lia).
  right. split; [congruence |].
  destruct Hab as [Cab | [Cab Yab]], Hbc as [Cbc | [Cbc Ybc]].
  - left. eapply string_compare_trans; eauto.
  - left. now rewrite <- Cbc.
  - left. now rewrite Cab.
  - right. split; [congruence |]. eapply Qle_trans; eauto.
Qed.

Lemma object_key_lt_asym (a b : LayoutObject) :
  object_key_lt a b = true -> object_key_lt b a = false.
Proof.
  intros H. apply object_key_lt_false_iff.
  destruct (object_key_lt b a) eqn:E.
  - exfalso. unfold object_key_lt in H, E.
    destruct (Z.eqb_spec (page_index a) (page_index b)) as [Ep | Np];
      destruct (Z.eqb_spec (page_index b) (page_index a)) as [Ep' | Np'];
      simpl in *; try congruence.
    + destruct (String.eqb_spec (col a) (col b)) as [Ec | Nc];
        destruct (String.eqb_spec (col b) (col a)) as [Ec' | Nc'];
        simpl in *; try congruence.
      * destruct (ltb_spec (y1 a) (y1 b)) as [H1 |]; [| discriminate].
        destruct (ltb_spec (y1 b) (y1 a)) as [H2 |]; [| discriminate].
        exact (Qlt_irrefl _ (Qlt_trans _ _ _ H1 H2)).
      * unfold Py.str_ltb, String.ltb in H, E.
        rewrite (String.compare_antisym (col b) (col a)) in E.
        destruct (String.compare (col a) (col b)); simpl in *; discriminate.
    + apply Z.ltb_lt in H, E. lia.
  - now apply object_key_lt_false_iff.
Qed.

(** The planner's sort keeps every object exactly once and puts the
    objects in reading order: every object is not after any later one. *)
Theorem sort_objects_reading_order (objs : list LayoutObject) :
  Permutation (sort_objects objs) objs /\
  StronglySorted reading_le (sort_objects objs).
Proof.
  split; [apply sorted_by_perm |].
  assert (H : StronglySorted (not_after object_key_lt) (sort_objects objs)).
  { apply sorted_by_sorted.
    - apply object_key_lt_asym.
    - intros a b c Hab Hbc. unfold not_after in *.
      rewrite object_key_lt_false_iff in *.
      eapply reading_le_trans; eauto. }
  induction H as [| x l Hl IH Hx]; constructor; auto.
  eapply Forall_impl; [exact Hx |].
  intros y Hy. now apply object_key_lt_false_iff.
Qed.

(** *** The order of the opinion spans *)

(** Order on the sort keys [(page, COL_ORDER, y1)] of spans. *)
Definition key_le (a b : Z * Z * Q) : Prop :=
  let '(pa, ca, ya) := a in
  let '(pb, cb, yb) := b in
  (pa < pb)%Z \/ (pa = pb /\ ((ca < cb)%Z \/ (ca = cb /\ (ya <= yb)%Q))).

Lemma span_key_lt_false_iff (a b : Z * Z * Q) :
  span_key_lt b a = false <-> key_le a b.
Proof.
  destruct a as [[pa ca] ya], b as [[pb cb] yb]. unfold span_key_lt, key_le.
  destruct (Z.eqb_spec pb pa) as [Ep | Np]; simpl.
  - destruct (Z.eqb_spec cb ca) as [Ec | Nc]; simpl.
    + destruct (ltb_spec yb ya) as [Hlt | Hge]; split.
      * discriminate.
      * intros [Hp | [_ [Hc | [_ Hy]]]]; [lia | lia |].
        exfalso. exact (Qlt_not_le _ _ Hlt Hy).
      * intros _. right. split; [auto |]. right. split; [auto |].
        now apply Qnot_lt_le.
      * reflexivity.
    + rewrite Z.ltb_ge. split.
      * intros H. right. split; [auto |]. left. lia.
      * intros [Hp | [_ [Hc | [Hc _]]]]; lia.
  - rewrite Z.ltb_ge. split.
    + intros H. left. lia.
    + intros [Hp | [Hp _]]; lia.
Qed.

Lemma key_le_trans (a b c : Z * Z * Q) : key_le a b -> key_le b c -> key_le a c.
Proof.
  destruct a as [[pa ca] ya], b as [[pb cb] yb], c as [[pc cc] yc].
  unfold key_le.
  intros [Hab | [Pab Hab]] [Hbc | [Pbc Hbc]]; try (left; lia).
  right. split; [lia |].
  destruct Hab as [Cab | [Cab Yab]], Hbc as [Cbc | [Cbc Ybc]];
    try (left; lia).
  right. split; [lia |]. eapply Qle_trans; eauto.
Qed.

Lemma key_le_total (a b : Z * Z * Q) : key_le a b \/ key_le b a.
Proof.
  destruct a as [[pa ca] ya], b as [[pb cb] yb]. unfold key_le.
  destruct (Z.lt_trichotomy pa pb) as [H | [H | H]]; auto.
  destruct (Z.lt_trichotomy ca cb) as [H' | [H' | H']]; auto.
  destruct (Qlt_le_dec ya yb) as [Hy | Hy].
  - left. right. split; auto. right. split; auto. now apply Qlt_le_weak.
  - right. right. split; auto.
Qed.

Lemma span_key_lt_asym (a b : Z * Z * Q) :
  span_key_lt a b = true -> span_key_lt b a = false.
Proof.
  intros H. apply span_key_lt_false_iff.
  destruct (key_le_total a b) as [Hab | Hba]; [exact Hab |].
  apply span_key_lt_false_iff in Hba. congruence.
Qed.

Lemma decorate_keys (spans : list OpinionSpan) :
  forall ks, decorate spans = Ok ks ->
  Forall (fun p => sort_key (snd p) = Ok (fst p)) ks.
Proof.
  induction spans as [| sp spans IH]; intros ks H; simpl in H.
  - injection H as <-. constructor.
  - destruct (sort_key sp) as [k |] eqn:Ek; simpl in H; [| discriminate].
    destruct (decorate spans) as [rest |]; simpl in H; [| discriminate].
    injection H as <-. constructor; auto.
Qed.

Lemma sort_spans_sorted (spans sorted : list OpinionSpan) :
  sort_spans spans = Ok sorted ->
  exists keys,
    Forall2 (fun sp k => sort_key sp = Ok k) sorted keys /\
    StronglySorted key_le keys.
Proof.
  unfold sort_spans. destruct (decorate spans) as [ks |] eqn:E; simpl;
    [| discriminate].
  intros [= <-].
  set (lt' := fun a b : (Z * Z * Q) * OpinionSpan => span_key_lt (fst a) (fst b)).
  exists (map fst (sorted_by lt' ks)). split.
  - assert (Hk : Forall (fun p => sort_key (snd p) = Ok (fst p))
                   (sorted_by lt' ks)).
    { eapply Permutation_Forall; [symmetry; apply sorted_by_perm |].
      exact (decorate_keys spans ks E). }
    induction Hk; simpl; constructor; auto.
  - assert (Hs : StronglySorted (not_after lt') (sorted_by lt' ks)).
    { apply sorted_by_sorted.
      - intros a b. apply span_key_lt_asym.
      - intros a b c. unfold not_after, lt'.
        rewrite !span_key_lt_false_iff. apply key_le_trans. }
    induction Hs as [| x l Hl IH Hx]; simpl; constructor; auto.
    apply Forall_map. eapply Forall_impl; [exact Hx |].
    intros y Hy. now apply span_key_lt_false_iff.
Qed.

Lemma named_from_keys (out sorted : list OpinionSpan) :
  Forall2 named_from out sorted ->
  forall keys, Forall2 (fun sp k => sort_key sp = Ok k) sorted keys ->
               Forall2 (fun sp k => sort_key sp = Ok k) out keys.
Proof.
  induction 1 as [| o s out sorted [nm ->] _ IH]; intros keys Hk;
    inversion Hk; subst; constructor; auto.
Qed.

(** The spans [plan] returns are ordered by the key of [_assign_case_names]:
    start page, then column (LEFT, RIGHT, anything else), then top edge of
    the start object. *)
Theorem plan_spans_ordered
    (filter_overlapping_boxes : list LayoutObject -> list LayoutObject)
    (idx : Z) (global_objects : list LayoutObject) (first_page : Z) :
  exists out keys,
    plan filter_overlapping_boxes idx global_objects first_page = Ok out /\
    Forall2 (fun sp k => sort_key sp = Ok k) (out_spans out) keys /\
    StronglySorted key_le keys.
Proof.
  unfold plan.
  destruct (collect (sort_objects (filter_overlapping_boxes global_objects)))
    as [hd ft].
  pose proof (run_inv (sort_objects (filter_overlapping_boxes global_objects))
                (init idx) (init_inv idx)) as [_ _ _ Hs].
  destruct (assign_total _ first_page Hs) as (out & sorted & E & Es & _ & Hn).
  destruct (sort_spans_sorted _ _ Es) as (keys & Hk & Hsorted).
  rewrite E. simpl. eexists. exists keys. split; [reflexivity |]. simpl.
  split; [| exact Hsorted]. eapply named_from_keys; eauto.
Qed.

(** *** Objects that do not drive the state machine *)

(** Objects whose label is not caption, line, headmatter or Key have no
    effect on the state machine, in any state: running it on a list is
    running it on the list without them. *)
Theorem run_ignores_other_labels (objs : list LayoutObject) (v : Vars) :
  run v objs = run v (List.filter (fun o => drives (label o)) objs).
Proof.
  revert v. induction objs as [| o objs IH]; intros v; [reflexivity |].
  cbn [List.filter]. destruct (drives (label o)) eqn:E.
  - unfold run in *. cbn [fold_left]. apply IH.
  - unfold run in *. cbn [fold_left]. rewrite (step_other_label v o E).
    apply IH.
Qed.

(** *** What one step emits *)

Lemma step_spans (v : Vars) (o : LayoutObject) :
  (opinion_spans (step v o) = opinion_spans v /\
   opinion_idx (step v o) = opinion_idx v) \/
  (exists s,
     opinion_start_caption v = Some s /\ label o = "Key" /\
     opinion_spans (step v o) =
       opinion_spans v ++
         [ {| span_n := opinion_idx v + 1; span_start := Some s;
              span_end := Some o; span_reason := "caption->Key";
              span_case_name := None |} ] /\
     opinion_idx (step v o) = opinion_idx v + 1).
Proof.
  unfold step. destruct (drives (label o)); simpl; auto.
  destruct (current_state v); auto.
  - destruct (label o =? "caption")%string; auto.
  - destruct (label o =? "line")%string; auto.
    destruct (label o =? "headmatter")%string;
      [destruct (candidate_end_node v); auto |].
    destruct (String.eqb_spec (label o) "Key") as [Ek |]; auto.
    destruct (opinion_start_caption v) as [s |] eqn:Es; simpl; auto.
    right. exists s. auto.
  - destruct (String.eqb_spec (label o) "Key") as [Ek |]; auto.
    destruct (opinion_start_caption v) as [s |] eqn:Es; simpl; auto.
    right. exists s. auto.
Qed.

(** *** Numbering of the spans *)

Definition numbered_from (idx0 : Z) (v : Vars) : Prop :=
  map span_n (opinion_spans v) =
    map (fun i => idx0 + Z.of_nat i) (seq 1 (length (opinion_spans v))) /\
  opinion_idx v = idx0 + Z.of_nat (length (opinion_spans v)).

Lemma step_numbered idx0 v o : numbered_from idx0 v -> numbered_from idx0 (step v o).
Proof.
  intros [Hn Hi]. unfold numbered_from.
  destruct (step_spans v o) as [[Es Ei] | (s & _ & _ & Es & Ei)];
    rewrite Es, Ei; [auto |].
  rewrite length_app, map_app, Nat.add_comm. simpl length at 1. cbn [Nat.add].
  rewrite seq_S, map_app, <- Hn. simpl. split; [| lia].
  do 2 f_equal. lia.
Qed.

Lemma run_numbered idx0 objs : forall v, numbered_from idx0 v -> numbered_from idx0 (run v objs).
Proof.
  induction objs as [| o objs IH]; intros v Hv; [exact Hv |].
  unfold run in *. cbn [fold_left]. apply IH. now apply step_numbered.
Qed.

Lemma named_from_numbers (out sorted : list OpinionSpan) :
  Forall2 named_from out sorted -> map span_n out = map span_n sorted.
Proof.
  induction 1 as [| o s out sorted [nm ->] _ IH]; simpl; [reflexivity |].
  now rewrite IH.
Qed.

(** A planner entered with [opinion_idx = idx] that returns [k] spans
    leaves [opinion_idx = idx + k], and the numbers [n] of the spans are
    [idx + 1], ..., [idx + k], each used once. *)
Theorem plan_numbers_spans
    (filter_overlapping_boxes : list LayoutObject -> list LayoutObject)
    (idx : Z) (global_objects : list LayoutObject) (first_page : Z) :
  exists out,
    plan filter_overlapping_boxes idx global_objects first_page = Ok out /\
    out_opinion_idx out = idx + Z.of_nat (length (out_spans out)) /\
    Permutation (map span_n (out_spans out))
      (map (fun i => idx + Z.of_nat i) (seq 1 (length (out_spans out)))).
Proof.
  unfold plan.
  destruct (collect (sort_objects (filter_overlapping_boxes global_objects)))
    as [hd ft].
  set (objs := sort_objects (filter_overlapping_boxes global_objects)).
  pose proof (run_inv objs (init idx) (init_inv idx)) as [_ _ _ Hs].
  assert (Hn : numbered_from idx (run (init idx) objs)).
  { apply run_numbered. split; simpl; [reflexivity | lia]. }
  destruct Hn as [Hn Hi].
  destruct (assign_total _ first_page Hs) as (out & sorted & E & _ & Hp & Hf).
  rewrite E. simpl. eexists. split; [reflexivity |]. simpl.
  assert (Hlen : length out = length (opinion_spans (run (init idx) objs))).
  { rewrite <- (Permutation_length Hp). eapply Forall2_length, Hf. }
  rewrite Hlen. split; [exact Hi |].
  rewrite (named_from_numbers _ _ Hf), <- Hn.
  now apply Permutation_map.
Qed.

(** *** Labels of what is emitted *)

Definition holds_label (l : string) (x : option LayoutObject) : Prop :=
  forall o, x = Some o -> label o = l.

Definition instr_labelled (i : RedactionInstruction) : Prop :=
  exists s e, instr_start i = Some s /\ instr_end i = Some e /\
              label s = "caption" /\
              (label e = "line" \/ label e = "headmatter").

Definition span_labelled (sp : OpinionSpan) : Prop :=
  exists s e, span_start sp = Some s /\ span_end sp = Some e /\
              label s = "caption" /\ label e = "Key" /\
              span_reason sp = "caption->Key".

Record Labelled (v : Vars) : Prop := mkLabelled {
  lab_active : holds_label "caption" (active_start_node v);
  lab_caption : holds_label "caption" (opinion_start_caption v);
  lab_candidate : holds_label "headmatter" (candidate_end_node v);
  lab_tracking : current_state v = TRACKING -> is_Some (active_start_node v);
  lab_instrs : Forall instr_labelled (redaction_instructions v);
  lab_spans : Forall span_labelled (opinion_spans v)
}.

Lemma holds_label_None l : holds_label l None.
Proof. intros o [=]. Qed.

Lemma holds_label_Some l o : label o = l -> holds_label l (Some o).
Proof. intros H o' [= <-]. exact H. Qed.

Lemma init_labelled idx : Labelled (init idx).
Proof.
  constructor; simpl; try apply holds_label_None; try constructor.
  discriminate.
Qed.

Ltac keep_labelled :=
  constructor; simpl in *;
  auto using holds_label_Some, holds_label_None;
  try (intros; congruence); try discriminate.

Lemma step_labelled v o : Labelled v -> Labelled (step v o).
Proof.
  intros [Ha Hc He Ht Hi Hs].
  assert (Hspans : Forall span_labelled (opinion_spans (step v o))).
  { destruct (step_spans v o) as [[Es _] | (s & Ec & Ek & Es & _)];
      rewrite Es; auto.
    apply Forall_app; split; auto. constructor; [| constructor].
    exists s, o. simpl. repeat split; auto. }
  revert Hspans. unfold step.
  destruct (drives (label o)); simpl; [| intros _; keep_labelled].
  destruct (current_state v) eqn:Est.
  - destruct (String.eqb_spec (label o) "caption") as [El |];
      intros Hsp; keep_labelled.
  - destruct (Ht eq_refl) as [a Ea].
    destruct (String.eqb_spec (label o) "line") as [El |].
    { intros Hsp. keep_labelled.
      apply Forall_app; split; auto. constructor; [| constructor].
      exists a, o. simpl. repeat split; auto. }
    destruct (String.eqb_spec (label o) "headmatter") as [Eh |].
    { destruct (candidate_end_node v) eqn:Ec; intros Hsp; keep_labelled.
      rewrite Ec. exact He. }
    destruct (String.eqb_spec (label o) "Key") as [Ek |];
      intros Hsp; [| keep_labelled].
    pose proof (record_keeps_rest v (opinion_start_caption v) (Some o)
                  "caption->Key") as (_ & Ea' & Ee' & _ & Ei').
    simpl in Ea', Ee', Ei'.
    keep_labelled.
    rewrite Ee', Ei', Ea'. destruct (candidate_end_node v) as [e |] eqn:Ec; auto.
    apply Forall_app; split; auto. constructor; [| constructor].
    exists a, e. simpl. repeat split; auto.
  - destruct (String.eqb_spec (label o) "Key") as [Ek |];
      intros Hsp; [| keep_labelled].
    pose proof (record_keeps_rest v (opinion_start_caption v) (Some o)
                  "caption->Key") as (_ & Ea' & Ee' & _ & Ei').
    simpl in Ea', Ee', Ei'.
    keep_labelled; rewrite ?Ea', ?Ee', ?Ei'; auto.
Qed.

Lemma run_labelled objs : forall v, Labelled v -> Labelled (run v objs).
Proof.
  induction objs as [| o objs IH]; intros v Hv; [exact Hv |].
  unfold run in *. cbn [fold_left]. apply IH. now apply step_labelled.
Qed.

Lemma named_from_labelled o s : named_from o s -> span_labelled s -> span_labelled o.
Proof. intros [nm ->] H. exact H. Qed.

(** Every instruction [plan] returns starts at a caption and ends at a
    line or a headmatter; every span it returns starts at a caption and
    ends at a Key, with reason "caption->Key". *)
Theorem plan_emits_labelled
    (filter_overlapping_boxes : list LayoutObject -> list LayoutObject)
    (idx : Z) (global_objects : list LayoutObject) (first_page : Z) :
  exists out,
    plan filter_overlapping_boxes idx global_objects first_page = Ok out /\
    Forall instr_labelled (out_instructions out) /\
    Forall span_labelled (out_spans out).
Proof.
  unfold plan.
  destruct (collect (sort_objects (filter_overlapping_boxes global_objects)))
    as [hd ft].
  set (objs := sort_objects (filter_overlapping_boxes global_objects)).
  pose proof (run_inv objs (init idx) (init_inv idx)) as [_ _ _ Hs].
  pose proof (run_labelled objs (init idx) (init_labelled idx))
    as [_ _ _ _ Hli Hls].
  destruct (assign_total _ first_page Hs) as (out & sorted & E & _ & Hp & Hf).
  rewrite E. simpl. eexists. split; [reflexivity |]. simpl.
  split; [exact Hli |].
  assert (Hsorted : Forall span_labelled sorted).
  { eapply Permutation_Forall; [symmetry; exact Hp | exact Hls]. }
  clear -Hf Hsorted. induction Hf as [| o s out sorted Hn _ IH];
    constructor; inversion Hsorted; subst; eauto using named_from_labelled.
Qed.

(** *** Headers and footers per page *)

Import RedactorFacts.

Definition labelled_on (l : string) (pg : Z) (o : LayoutObject) : bool :=
  ((label o =? l)%string && (page_index o =? pg)%Z)%bool.

(** The footer entry of a page, given the entry before the loop and the
    top edges of the page's footnotes met in the loop. *)
Definition footer_entry (before : option Q) (tops : list Q) (after : option Q)
  : Prop :=
  match before, tops with
  | None, [] => after = None
  | _, _ => exists m, after = Some m /\ is_min m (option_list before ++ tops)
  end.

Lemma footer_entry_keep (before : option Q) : footer_entry before [] before.
Proof.
  destruct before as [f |]; simpl; [| reflexivity].
  exists f. split; [reflexivity | apply is_min_single].
Qed.

Lemma collect_step_eq (hs fs : gmap Z Q) (o : LayoutObject) :
  collect_step (hs, fs) o =
  if (label o =? "header")%string then (<[page_index o := y2 o]> hs, fs)
  else if (label o =? "footnotes")%string then
    (hs, <[page_index o :=
             match fs !! page_index o with
             | Some f => Py.min f (y1 o)
             | None => y1 o
             end]> fs)
  else (hs, fs).
Proof. reflexivity. Qed.

Lemma filter_labelled_cons (l : string) (pg : Z) (o : LayoutObject)
    (objs : list LayoutObject) :
  List.filter (labelled_on l pg) (o :: objs) =
  if ((label o =? l)%string && (page_index o =? pg)%Z)%bool
  then o :: List.filter (labelled_on l pg) objs
  else List.filter (labelled_on l pg) objs.
Proof. reflexivity. Qed.

Lemma collect_fold (objs : list LayoutObject) (pg : Z) :
  forall hs fs,
    fst (fold_left collect_step objs (hs, fs)) !! pg =
      match last (map y2 (List.filter (labelled_on "header" pg) objs)) with
      | Some y => Some y
      | None => hs !! pg
      end /\
    footer_entry (fs !! pg)
      (map y1 (List.filter (labelled_on "footnotes" pg) objs))
      (snd (fold_left collect_step objs (hs, fs)) !! pg).
Proof.
  induction objs as [| o objs IH]; intros hs fs.
  - split; [reflexivity | apply footer_entry_keep].
  - cbn [fold_left]. rewrite collect_step_eq, !filter_labelled_cons.
    destruct (String.eqb_spec (label o) "header") as [Eh | Nh].
    + assert (Ef : (label o =? "footnotes")%string = false)
        by (rewrite Eh; reflexivity).
      rewrite Ef. cbn [andb].
      destruct (IH (<[page_index o := y2 o]> hs) fs) as [IHh IHf].
      split; [| exact IHf]. rewrite IHh.
      destruct (Z.eqb_spec (page_index o) pg) as [Ep | Np]; cbn [map].
      * rewrite last_cons. subst pg.
        destruct (last (map y2 (List.filter (labelled_on "header" (page_index o)) objs)));
          [reflexivity | apply lookup_insert_eq].
      * destruct (last (map y2 (List.filter (labelled_on "header" pg) objs)));
          [reflexivity | now apply lookup_insert_ne].
    + cbn [andb].
      destruct (String.eqb_spec (label o) "footnotes") as [Ef | Nf];
        cbn [andb]; [| apply IH].
      set (lowest := match fs !! page_index o with
                     | Some f => Py.min f (y1 o)
                     | None => y1 o
                     end).
      destruct (IH hs (<[page_index o := lowest]> fs)) as [IHh IHf].
      split; [exact IHh |].
      destruct (Z.eqb_spec (page_index o) pg) as [Ep | Np]; cbn [map].
      * subst pg. rewrite lookup_insert_eq in IHf.
        unfold footer_entry in *. simpl in IHf.
        destruct IHf as (m & Em & Hm). unfold lowest in Hm.
        destruct (fs !! page_index o) as [f |]; simpl.
        -- exists m. split; [exact Em | now apply is_min_push].
        -- exists m. split; [exact Em | exact Hm].
      * now rewrite lookup_insert_ne in IHf.
Qed.

(** After the collection loop, the header entry of a page is the bottom
    edge of the last header object of that page in the order processed,
    and is absent when the page has no header object. *)
Theorem collect_headers_last (objs : list LayoutObject) (pg : Z) :
  fst (collect objs) !! pg =
  last (map y2 (List.filter (labelled_on "header" pg) objs)).
Proof.
  unfold collect. rewrite (proj1 (collect_fold objs pg ∅ ∅)), lookup_empty.
  now destruct (last _).
Qed.

(** After the collection loop, the footer entry of a page is absent when
    the page has no footnotes object, and otherwise is the least top edge
    among the page's footnotes objects. *)
Theorem collect_footers_topmost (objs : list LayoutObject) (pg : Z) :
  match map y1 (List.filter (labelled_on "footnotes" pg) objs) with
  | [] => snd (collect objs) !! pg = None
  | tops => exists m, snd (collect objs) !! pg = Some m /\ is_min m tops
  end.
Proof.
  unfold collect. pose proof (proj2 (collect_fold objs pg ∅ ∅)) as H.
  rewrite lookup_empty in H. unfold footer_entry in H. simpl in H.
  destruct (map y1 (List.filter (labelled_on "footnotes" pg) objs)); exact H.
Qed.

(** *** Case names are file names: no two spans share one *)

#[local] Existing Instance in_group_dec.

Fixpoint no_dash (s : string) : Prop :=
  match s with
  | EmptyString => True
  | String c s' => c <> "-"%char /\ no_dash s'
  end.

Lemma uint_of_string_no_dash (s : string) :
  forall d, NilEmpty.uint_of_string s = Some d -> no_dash s.
Proof.
  induction s as [| c s IH]; intros d H; simpl in *; [exact I |].
  destruct (NilEmpty.uint_of_string s) as [d' |]; [| discriminate].
  split; [| now apply (IH d')].
  apply uint_of_char_spec in H.
  intros ->. repeat (destruct H as [[H _] | H]; [discriminate |]).
  destruct H as [H _]. discriminate.
Qed.

Lemma format_0d_no_dash (w : nat) (z : Z) : (0 <= z)%Z -> no_dash (Py.format_0d w z).
Proof.
  intros Hz. pose proof (format_0d_value w z Hz) as H.
  unfold digits_value in H.
  destruct (NilEmpty.uint_of_string (Py.format_0d w z)) as [d |] eqn:E;
    [| discriminate].
  now apply (uint_of_string_no_dash _ d).
Qed.

Lemma split_at_dash (a : string) :
  forall a' b b',
    no_dash a -> no_dash a' ->
    (a ++ String "-" b)%string = (a' ++ String "-" b')%string ->
    a = a' /\ b = b'.
Proof.
  induction a as [| c a IH]; intros [| c' a'] b b' Ha Ha' E; simpl in *.
  - injection E as ->. auto.
  - injection E as <- _. destruct Ha' as [Hc _]. congruence.
  - injection E as -> _. destruct Ha as [Hc _]. congruence.
  - injection E as -> E. destruct Ha as [_ Ha], Ha' as [_ Ha'].
    destruct (IH a' b b' Ha Ha' E) as [-> ->]. auto.
Qed.

Lemma case_name_of_inj_both (p q a b : Z) :
  (0 <= p)%Z -> (0 <= q)%Z -> (0 <= a)%Z -> (0 <= b)%Z ->
  case_name_of p a = case_name_of q b -> p = q /\ a = b.
Proof.
  intros Hp Hq Ha Hb E. unfold case_name_of in E.
  apply split_at_dash in E; auto using format_0d_no_dash.
  destruct E as [E1 E2]. split; eapply format_0d_inj; eauto.
Qed.

Lemma NoDup_names (page_start : Z) (l : list OpinionSpan) :
  (forall x, x ∈ l -> is_Some (first_page_of page_start x)) ->
  (forall x y p q, x ∈ l -> y ∈ l ->
     first_page_of page_start x = Some p ->
     first_page_of page_start y = Some q ->
     span_case_name x = span_case_name y -> p = q) ->
  (forall p, NoDup (map span_case_name (filter (in_group page_start p) l))) ->
  NoDup (map span_case_name l).
Proof.
  induction l as [| a l IH]; intros Hsome Hsame Hgroups; simpl.
  - constructor.
  - destruct (Hsome a) as [p Hp]; [left |].
    apply NoDup_cons. split.
    + intros Hin. apply list_elem_of_fmap in Hin as (y & Ey & Hy).
      destruct (Hsome y) as [q Hq]; [now right |].
      assert (p = q) by (eapply (Hsame a y); eauto; [left | now right]).
      subst q. specialize (Hgroups p).
      rewrite filter_cons_True in Hgroups by exact Hp.
      simpl in Hgroups. apply NoDup_cons in Hgroups as [Hnot _].
      apply Hnot. apply list_elem_of_fmap. exists y. split; [exact Ey |].
      apply list_elem_of_filter. split; [exact Hq | exact Hy].
    + apply IH.
      * intros x Hx. apply Hsome. now right.
      * intros x y p' q' Hx Hy. apply Hsame; now right.
      * intros p'. specialize (Hgroups p'). rewrite filter_cons in Hgroups.
        destruct (decide (in_group page_start p' a)); [| exact Hgroups].
        simpl in Hgroups. now apply NoDup_cons in Hgroups as [_ ?].
Qed.

Lemma named_from_first_page page_start (out sorted : list OpinionSpan) :
  Forall2 named_from out sorted ->
  map (first_page_of page_start) out = map (first_page_of page_start) sorted.
Proof.
  induction 1 as [| o s out sorted [nm ->] _ IH]; simpl; [reflexivity |].
  now rewrite IH.
Qed.

(** When every span has a start whose first page,
    [page_index + page_start], is not negative, case-name assignment gives
    pairwise different case names, so no two opinions are written to the
    same file. *)
Theorem case_names_distinct (spans : list OpinionSpan) (page_start : Z) :
  Forall (fun sp => exists p, first_page_of page_start sp = Some p /\ (0 <= p)%Z)
         spans ->
  exists out,
    _assign_case_names spans page_start = Ok out /\
    NoDup (map span_case_name out).
Proof.
  intros Hs.
  assert (Hstart : Forall (fun sp => is_Some (span_start sp)) spans).
  { eapply Forall_impl; [exact Hs |]. intros sp (p & Hp & _).
    unfold first_page_of in Hp. destruct (span_start sp); eauto; discriminate. }
  destruct (sort_spans_total spans Hstart) as (sorted & E & Hp).
  assert (Hstart' : Forall (fun sp => is_Some (span_start sp)) sorted).
  { eapply Permutation_Forall; [symmetry; exact Hp | exact Hstart]. }
  destruct (name_loop_total page_start sorted Hstart' ∅) as (out & En & Hn).
  assert (Ea : _assign_case_names spans page_start = Ok out).
  { destruct spans as [| sp spans].
    - simpl in E. injection E as <-. simpl in En. now injection En as <-.
    - unfold _assign_case_names. now rewrite E. }
  exists out. split; [exact Ea |].
  assert (Hout : Forall (fun sp => exists p, first_page_of page_start sp = Some p
                                           /\ (0 <= p)%Z) out).
  { assert (Hsorted : Forall (fun sp => exists p,
                first_page_of page_start sp = Some p /\ (0 <= p)%Z) sorted).
    { eapply Permutation_Forall; [symmetry; exact Hp | exact Hs]. }
    clear -Hn Hsorted. induction Hn as [| o s out sorted [nm ->] _ IH];
      constructor; inversion Hsorted; subst; auto. }
  rewrite Forall_forall in Hout.
  assert (Hname : forall x p, x ∈ out -> first_page_of page_start x = Some p ->
            exists c, (0 <= c)%Z /\ span_case_name x = Some (case_name_of p c)).
  { intros x p Hx Hxp.
    assert (Hin : span_case_name x ∈
                  map span_case_name (filter (in_group page_start p) out)).
    { apply list_elem_of_fmap. exists x. split; [reflexivity |].
      apply list_elem_of_filter. split; [exact Hxp | exact Hx]. }
    rewrite (name_loop_groups _ _ _ _ En p), lookup_empty in Hin.
    unfold names_from in Hin.
    apply list_elem_of_fmap in Hin as (i & Ei & _).
    exists (0 + Z.of_nat i)%Z. split; [lia | exact Ei]. }
  apply (NoDup_names page_start).
  - intros x Hx. destruct (Hout x Hx) as (p & Ep & _). eauto.
  - intros x y p q Hx Hy Ep Eq Exy.
    destruct (Hname x p Hx Ep) as (c & Hc & Ec).
    destruct (Hname y q Hy Eq) as (d & Hd & Ed).
    destruct (Hout x Hx) as (p' & Ep' & Hp').
    destruct (Hout y Hy) as (q' & Eq' & Hq').
    rewrite Ep in Ep'. rewrite Eq in Eq'. injection Ep' as <-.
    injection Eq' as <-.
    rewrite Ec, Ed in Exy. injection Exy as Exy.
    now apply case_name_of_inj_both in Exy.
  - intros p. rewrite (name_loop_groups _ _ _ _ En p), lookup_empty.
    apply names_from_NoDup. simpl. lia.
Qed.

(** The three sample spans get the names 0012-01, 0012-02 and 0013-01. *)
Lemma case_names_distinct_witness :
  exists out,
    _assign_case_names
      [span 3 caption3 key3; span 2 caption2 key2; span 1 caption1 key1] 12
      = Ok out /\
    NoDup (map span_case_name out).
Proof.
  apply (case_names_distinct
           [span 3 caption3 key3; span 2 caption2 key2; span 1 caption1 key1]
           12).
  repeat constructor; eexists; (split; [reflexivity | discriminate]).
Defined.

(** *** Case names follow the sort order *)

(** The rank of a column in the ordering of spans. *)
Definition column_rank (c : string) : Z :=
  if decide (c = "LEFT") then 0
  else if decide (c = "RIGHT") then 1
  else 99.

(** [x] does not come after [y]: by page of the start object, then by
    rank of its column, then by its top edge. *)
Definition span_order (x y : OpinionSpan) : Prop :=
  exists a b,
    span_start x = Some a /\ span_start y = Some b /\
    ((page_index a < page_index b)%Z \/
     (page_index a = page_index b /\
      ((column_rank (col a) < column_rank (col b))%Z \/
       (column_rank (col a) = column_rank (col b) /\ (y1 a <= y1 b)%Q)))).

Lemma COL_ORDER_rank (c : string) : COL_ORDER c = column_rank c.
Proof.
  unfold COL_ORDER, column_rank.
  destruct (String.eqb_spec c "LEFT"), (decide (c = "LEFT")); try congruence.
  destruct (String.eqb_spec c "RIGHT"), (decide (c = "RIGHT")); congruence.
Qed.

Lemma sort_key_start (sp : OpinionSpan) (k : Z * Z * Q) :
  sort_key sp = Ok k ->
  exists a, span_start sp = Some a /\
            k = (page_index a, column_rank (col a), y1 a).
Proof.
  unfold sort_key. destruct (span_start sp) as [a |]; [| discriminate].
  intros [= <-]. exists a. now rewrite COL_ORDER_rank.
Qed.

Lemma keys_sorted_spans (l : list OpinionSpan) (keys : list (Z * Z * Q)) :
  Forall2 (fun sp k => sort_key sp = Ok k) l keys ->
  StronglySorted key_le keys -> StronglySorted span_order l.
Proof.
  induction 1 as [| sp k l keys Hk Hl IH]; intros Hs; [constructor |].
  apply StronglySorted_inv in Hs as [Hs Hall].
  constructor; [now apply IH |].
  apply sort_key_start in Hk as (a & Ea & ->).
  clear IH Hs. induction Hl as [| sp' k' l keys Hk' _ IH']; [constructor |].
  inversion Hall; subst. constructor; [| now apply IH'].
  apply sort_key_start in Hk' as (b & Eb & ->).
  exists a, b. auto.
Qed.

Lemma named_from_sorted (out sorted : list OpinionSpan) :
  Forall2 named_from out sorted ->
  StronglySorted span_order sorted -> StronglySorted span_order out.
Proof.
  induction 1 as [| o s0 out sorted [nm ->] Hrest IH]; intros Hs;
    [constructor |].
  apply StronglySorted_inv in Hs as [Hs Hall].
  constructor; [now apply IH |].
  clear IH Hs. induction Hrest as [| o' s' out sorted [nm' ->] _ IH'];
    [constructor |].
  inversion Hall; subst. constructor; [| now apply IH'].
  assumption.
Qed.

(** C4. Case-name assignment succeeds on spans that all have a start.
    Its result is the input spans, each exactly once, put in the order of
    the sort (start page, then column LEFT, RIGHT, other, then top edge),
    each with a case name filled in and nothing else changed.  For every
    first-page value [p], the names of the spans whose first page is [p],
    read in that order, are [p:04d-01], [p:04d-02], ..., up to the size
    of the group; in particular no name occurs twice among them. *)
Theorem case_names_contiguous (spans : list OpinionSpan) (page_start : Z) :
  Forall (fun sp => is_Some (span_start sp)) spans ->
  exists out sorted,
    _assign_case_names spans page_start = Ok out /\
    sort_spans spans = Ok sorted /\
    Permutation sorted spans /\
    StronglySorted span_order sorted /\
    Forall2 named_from out sorted /\
    StronglySorted span_order out /\
    forall p,
      let group := filter (in_group page_start p) out in
      map span_case_name group =
        map (fun i => Some (case_name_of p (Z.of_nat i)))
            (seq 1 (length group)) /\
      NoDup (map span_case_name group).
Proof.
  intros Hs.
  destruct (sort_spans_total spans Hs) as (sorted & E & Hp).
  assert (Hs' : Forall (fun sp => is_Some (span_start sp)) sorted).
  { eapply Permutation_Forall; [symmetry; exact Hp | exact Hs]. }
  destruct (name_loop_total page_start sorted Hs' ∅) as (out & En & Hn).
  assert (Ea : _assign_case_names spans page_start = Ok out).
  { destruct spans as [| sp spans].
    - simpl in E. injection E as <-. simpl in En. now injection En as <-.
    - unfold _assign_case_names. now rewrite E. }
  destruct (sort_spans_sorted _ _ E) as (keys & Hk & Hsorted).
  pose proof (keys_sorted_spans _ _ Hk Hsorted) as Hord.
  exists out, sorted. repeat split; auto.
  - eapply named_from_sorted; eauto.
  - rewrite (name_loop_groups _ _ _ _ En p), lookup_empty. reflexivity.
  - rewrite (name_loop_groups _ _ _ _ En p), lookup_empty.
    apply names_from_NoDup. simpl. lia.
Qed.

(** C4 on three spans given out of order: two start on page 0 and one on
    page 1. *)
Lemma case_names_contiguous_witness :
  exists out sorted,
    _assign_case_names
      [span 3 caption3 key3; span 2 caption2 key2; span 1 caption1 key1] 12
      = Ok out /\
    sort_spans
      [span 3 caption3 key3; span 2 caption2 key2; span 1 caption1 key1]
      = Ok sorted /\
    Permutation sorted
      [span 3 caption3 key3; span 2 caption2 key2; span 1 caption1 key1] /\
    StronglySorted span_order sorted /\
    Forall2 named_from out sorted /\
    StronglySorted span_order out /\
    forall p,
      let group := filter (in_group 12 p) out in
      map span_case_name group =
        map (fun i => Some (case_name_of p (Z.of_nat i)))
            (seq 1 (length group)) /\
      NoDup (map span_case_name group).
Proof.
  apply (case_names_contiguous
           [span 3 caption3 key3; span 2 caption2 key2; span 1 caption1 key1]
           12).
  repeat constructor; simpl; eauto.
Defined.

(** The same three spans with the names they get, zero-padded as the
    format [{first_page:04d}-{counter:02d}] prints them. *)
Example case_names_sample :
  _assign_case_names
    [span 3 caption3 key3; span 2 caption2 key2; span 1 caption1 key1] 12 =
  Ok [ set_case_name (span 1 caption1 key1) "0012-01";
       set_case_name (span 2 caption2 key2) "0012-02";
       set_case_name (span 3 caption3 key3) "0013-01" ].
Proof. reflexivity. Qed.

End PlannerMore.

(** ** More on the geometry engine *)

Module RedactorMore.
Import Redactor RedactorFacts PlannerFacts Samples.

(** *** Truncation *)

Lemma int_floor (x : Q) : (0 <= x)%Q -> Py.int x = Qfloor x.
Proof.
  destruct x as [n d]. unfold Qle, Py.int, Qfloor. simpl. intros H.
  apply Z.quot_div_nonneg; lia.
Qed.

Lemma int_nonpos (x : Q) : (x < 0)%Q -> (Py.int x <= 0)%Z.
Proof.
  destruct x as [n d]. unfold Qlt, Py.int. simpl. intros H.
  apply Z.le_trans with (0 ÷ Z.pos d)%Z;
    [apply Z.quot_le_mono; lia | rewrite Z.quot_0_l; lia].
Qed.

Lemma int_le_self (x : Q) : (0 <= x)%Q -> (inject_Z (Py.int x) <= x)%Q.
Proof. intros H. rewrite (int_floor x H). apply Qfloor_le. Qed.

Lemma int_mono_nonneg (x y : Q) :
  (0 <= x)%Q -> (x <= y)%Q -> (Py.int x <= Py.int y)%Z.
Proof.
  intros Hx Hxy. rewrite (int_floor x Hx).
  rewrite (int_floor y) by (eapply Qle_trans; eauto).
  now apply Qfloor_resp_le.
Qed.

Lemma py_max_ge_l (a b : Q) : (a <= Py.max a b)%Q.
Proof.
  destruct (py_max_cases a b) as [[E H] | [E H]]; rewrite E;
    [apply Qle_refl | now apply Qlt_le_weak].
Qed.

Lemma py_min_le_l (a b : Q) : (Py.min a b <= a)%Q.
Proof.
  destruct (py_min_cases a b) as [[E H] | [E H]]; rewrite E;
    [apply Qle_refl | now apply Qlt_le_weak].
Qed.

(** *** Bounds kept by every page *)

Lemma header_ceiling_ge_90 (objs_on_page : list LayoutObject) (img_h : Q) :
  (90 <= header_ceiling objs_on_page img_h)%Q.
Proof.
  unfold header_ceiling.
  destruct (map y2 _) as [| h hs]; [apply Qle_refl |].
  destruct (Py.ltb _ _); [apply py_max_ge_l | apply Qle_refl].
Qed.

Lemma bottom_limits_le_default (objs_on_page : list LayoutObject) (img_h : Q) :
  (fst (bottom_limits objs_on_page img_h) <= img_h - 60)%Q /\
  (snd (bottom_limits objs_on_page img_h) <= img_h - 60)%Q.
Proof.
  unfold bottom_limits.
  destruct (footnote_fold objs_on_page (img_h - 60)%Q (img_h - 60)%Q)
    as [[_ Hl] [_ Hr]].
  inversion Hl; inversion Hr; subst. auto.
Qed.

(** *** Every body window stays inside the vertical limits *)

Section Windows.
Variables (config : RedactionConfig) (page_idx : Z) (ceiling_y : Q)
  (limit_bottom_left limit_bottom_right : Q)
  (LEFT_X1 LEFT_X2 RIGHT_X1 RIGHT_X2 : Q) (scale_x scale_y : Q).

(** A request to the line redactor for pixel rows [top..bottom] of one
    column, with the rows between the truncated ceiling and the column's
    bottom limit. *)
Definition window_in_limits (c : Call) : Prop :=
  exists (is_left : bool) (top bottom : Z),
    c = redact_text_lines_in_window
          ((if is_left then LEFT_X1 else RIGHT_X1) * scale_x,
           inject_Z top * scale_y,
           (if is_left then LEFT_X2 else RIGHT_X2) * scale_x,
           inject_Z bottom * scale_y)%Q
          (text_pad config) (y_tolerance config) (merge_gap config) /\
    (Py.int ceiling_y <= top)%Z /\ (top < bottom)%Z /\
    (inject_Z bottom <=
       (if is_left then limit_bottom_left else limit_bottom_right))%Q.

Hypothesis ceiling_nonneg : (0 <= ceiling_y)%Q.

Lemma do_column_box_in_limits (y_top_px y_bottom_px : Q) (is_left : bool) :
  Forall window_in_limits
    (do_column_box config ceiling_y limit_bottom_left limit_bottom_right
       LEFT_X1 LEFT_X2 RIGHT_X1 RIGHT_X2 scale_x scale_y
       y_top_px y_bottom_px is_left).
Proof.
  unfold do_column_box.
  set (top := Py.int (Py.max ceiling_y y_top_px)).
  set (lim := if is_left then limit_bottom_left else limit_bottom_right).
  set (bottom := Py.int (Py.min lim y_bottom_px)).
  destruct (Z.leb_spec bottom top) as [Hle | Hlt]; constructor; [| constructor].
  assert (Htop : (Py.int ceiling_y <= top)%Z).
  { apply int_mono_nonneg; [exact ceiling_nonneg | apply py_max_ge_l]. }
  exists is_left, top, bottom. repeat split; auto.
  fold lim.
  destruct (Qlt_le_dec (Py.min lim y_bottom_px) 0) as [Hneg | Hpos].
  - exfalso. pose proof (int_nonpos _ Hneg) as Hb. fold bottom in Hb.
    assert (0 <= Py.int ceiling_y)%Z.
    { rewrite (int_floor _ ceiling_nonneg).
      change 0%Z with (Qfloor 0). now apply Qfloor_resp_le. }
    lia.
  - eapply Qle_trans; [apply (int_le_self _ Hpos) | apply py_min_le_l].
Qed.

Lemma page_cases_in_limits (start_ end_ : LayoutObject) :
  Forall window_in_limits
    (page_cases config page_idx ceiling_y limit_bottom_left limit_bottom_right
       LEFT_X1 LEFT_X2 RIGHT_X1 RIGHT_X2 scale_x scale_y start_ end_).
Proof.
  unfold page_cases.
  repeat match goal with
         | |- context [if ?b then _ else _] => destruct b
         end;
    repeat apply Forall_app_2; try apply do_column_box_in_limits;
    constructor.
Qed.

Lemma apply_instruction_in_limits (instr : RedactionInstruction) :
  Forall window_in_limits
    (fst (_apply_instruction config page_idx ceiling_y limit_bottom_left
            limit_bottom_right LEFT_X1 LEFT_X2 RIGHT_X1 RIGHT_X2
            scale_x scale_y instr)).
Proof.
  unfold _apply_instruction.
  destruct (instr_end instr) as [e |]; [| constructor].
  destruct (page_index e <? page_idx)%Z; [constructor |].
  destruct (instr_start instr) as [s0 |]; [| constructor].
  destruct (page_index s0 >? page_idx)%Z; [constructor |].
  apply page_cases_in_limits.
Qed.
End Windows.

Lemma for_each_Forall {A : Type} (P : Call -> Prop) (body : A -> Effect)
    (l : list A) :
  (forall x, Forall P (fst (body x))) -> Forall P (fst (for_each body l)).
Proof.
  intros H. induction l as [| x l IH]; simpl; [constructor |].
  specialize (H x). destruct (body x) as [cs [e |]]; [exact H |].
  destruct (for_each body l) as [cs' e']. simpl in *.
  now apply Forall_app_2.
Qed.

(** Whatever the instructions are, every call the body redaction of a
    page issues is a request to the line redactor for one column of the
    page, for pixel rows [top..bottom] with [90 <= top < bottom] and
    [bottom <= img_h - 60]; moreover [top] is not above the truncated
    header ceiling and [bottom] is not below the column's footnote
    limit. *)
Theorem body_windows_within_limits
    (config : RedactionConfig) (instructions : list RedactionInstruction)
    (page_idx : Z) (objs_on_page : list LayoutObject) (img_h : Q)
    (page_columns_px : gmap Z (Q * Q * Q * Q * Q)) (scale_x scale_y : Q) :
  let limits := bottom_limits objs_on_page img_h in
  let ceiling_y := header_ceiling objs_on_page img_h in
  let bounds := column_bounds page_columns_px page_idx img_h in
  Forall
    (fun c =>
       exists (is_left : bool) (top bottom : Z),
         c = redact_text_lines_in_window
               ((if is_left then bounds.1.1.1.1 else bounds.1.1.2) * scale_x,
                inject_Z top * scale_y,
                (if is_left then bounds.1.1.1.2 else bounds.1.2) * scale_x,
                inject_Z bottom * scale_y)%Q
               (text_pad config) (y_tolerance config) (merge_gap config) /\
         (90 <= top)%Z /\ (Py.int ceiling_y <= top)%Z /\ (top < bottom)%Z /\
         (inject_Z bottom <= (if is_left then fst limits else snd limits))%Q /\
         (inject_Z bottom <= img_h - 60)%Q)
    (fst (_apply_body_redactions config instructions page_idx objs_on_page
            img_h page_columns_px scale_x scale_y)).
Proof.
  intros limits ceiling_y bounds. unfold _apply_body_redactions.
  fold limits. fold ceiling_y. fold bounds.
  pose proof (header_ceiling_ge_90 objs_on_page img_h) as Hc90.
  fold ceiling_y in Hc90.
  destruct (bottom_limits_le_default objs_on_page img_h) as [Hl Hr].
  fold limits in Hl, Hr.
  destruct limits as [L R]. destruct bounds as [[[[X1 X2] X3] X4] X5].
  assert (Hc0 : (0 <= ceiling_y)%Q) by (eapply Qle_trans; [| exact Hc90]; discriminate).
  assert (H90 : (90 <= Py.int ceiling_y)%Z).
  { change 90%Z with (Py.int 90). apply int_mono_nonneg; [discriminate | exact Hc90]. }
  eapply Forall_impl.
  - apply for_each_Forall. intros instr.
    apply (apply_instruction_in_limits config page_idx ceiling_y L R
             X1 X2 X3 X4 scale_x scale_y Hc0 instr).
  - intros c (is_left & top & bottom & -> & Ht & Hlt & Hb).
    exists is_left, top, bottom. simpl. repeat split; auto; try lia.
    destruct is_left; simpl in *; eapply Qle_trans; eauto.
Qed.

(** *** Instructions and the page being processed *)

Section BodyLoop.
Variables (config : RedactionConfig) (page_idx : Z)
  (objs_on_page : list LayoutObject) (img_h : Q)
  (page_columns_px : gmap Z (Q * Q * Q * Q * Q)) (scale_x scale_y : Q).

(** The instruction has both ends and lies wholly before or wholly after
    the page. *)
Definition off_page (i : RedactionInstruction) : Prop :=
  exists s e, instr_start i = Some s /\ instr_end i = Some e /\
              ((page_index e < page_idx)%Z \/ (page_idx < page_index s)%Z).

Lemma for_each_nothing {A : Type} (body : A -> Effect) (l : list A) :
  Forall (fun x => body x = ([], None)) l -> for_each body l = ([], None).
Proof.
  induction 1 as [| x l Hx _ IH]; simpl; [reflexivity |].
  now rewrite Hx, IH.
Qed.

(** Instructions that end before the page or start after it leave the
    page alone: the body redaction issues no call and raises nothing. *)
Theorem off_page_instructions_do_nothing
    (instructions : list RedactionInstruction) :
  Forall off_page instructions ->
  _apply_body_redactions config instructions page_idx objs_on_page img_h
    page_columns_px scale_x scale_y = ([], None).
Proof.
  intros H. unfold _apply_body_redactions.
  destruct (bottom_limits objs_on_page img_h) as [L R].
  destruct (column_bounds page_columns_px page_idx img_h)
    as [[[[X1 X2] X3] X4] X5].
  apply for_each_nothing. eapply Forall_impl; [exact H |].
  intros i (s0 & e & Es & Ee & Hp). unfold _apply_instruction.
  rewrite Ee, Es.
  destruct (Z.ltb_spec (page_index e) page_idx); [reflexivity |].
  destruct Hp as [Hp | Hp]; [lia |].
  rewrite Z.gtb_ltb. destruct (Z.ltb_spec page_idx (page_index s0)); [reflexivity | lia].
Qed.

Lemma do_column_box_length c l r x1 x2 x3 x4 sx sy a b is_left :
  (length (do_column_box config c l r x1 x2 x3 x4 sx sy a b is_left) <= 1)%nat.
Proof. unfold do_column_box. destruct (_ <=? _)%Z; simpl; lia. Qed.

Lemma page_cases_length c l r x1 x2 x3 x4 sx sy s0 e :
  (length (page_cases config page_idx c l r x1 x2 x3 x4 sx sy s0 e) <= 2)%nat.
Proof.
  unfold page_cases.
  repeat match goal with
         | |- context [if ?b then _ else _] => destruct b
         end;
    rewrite ?length_app;
    repeat match goal with
           | |- context [length (do_column_box ?cf ?c ?l ?r ?x1 ?x2 ?x3 ?x4 ?sx ?sy ?a ?b ?il)] =>
               let H := fresh in
               pose proof (do_column_box_length c l r x1 x2 x3 x4 sx sy a b il) as H;
               generalize dependent (length (do_column_box cf c l r x1 x2 x3 x4 sx sy a b il));
               intros
           end;
    simpl; lia.
Qed.

Lemma for_each_complete {A : Type} (body : A -> Effect) (l : list A) (k : nat) :
  Forall (fun x => snd (body x) = None /\ (length (fst (body x)) <= k)%nat) l ->
  snd (for_each body l) = None /\
  (length (fst (for_each body l)) <= k * length l)%nat.
Proof.
  induction 1 as [| x l [Hx Hk] _ [IH1 IH2]]; simpl; [split; [auto | lia] |].
  destruct (body x) as [cs [e |]]; simpl in *; [discriminate |].
  destruct (for_each body l) as [cs' e']; simpl in *.
  split; [exact IH1 |]. rewrite length_app. lia.
Qed.

(** When every instruction has a start and an end, the body redaction of
    a page raises nothing and issues at most two windows per
    instruction. *)
Theorem body_redactions_total (instructions : list RedactionInstruction) :
  Forall instr_complete instructions ->
  snd (_apply_body_redactions config instructions page_idx objs_on_page img_h
         page_columns_px scale_x scale_y) = None /\
  (length (fst (_apply_body_redactions config instructions page_idx
                  objs_on_page img_h page_columns_px scale_x scale_y))
   <= 2 * length instructions)%nat.
Proof.
  intros H. unfold _apply_body_redactions.
  destruct (bottom_limits objs_on_page img_h) as [L R].
  destruct (column_bounds page_columns_px page_idx img_h)
    as [[[[X1 X2] X3] X4] X5].
  apply for_each_complete. eapply Forall_impl; [exact H |].
  intros i [[s0 Es] [e Ee]]. unfold _apply_instruction. rewrite Ee, Es.
  destruct (page_index e <? page_idx)%Z; [simpl; split; [auto | lia] |].
  destruct (page_index s0 >? page_idx)%Z; [simpl; split; [auto | lia] |].
  simpl. split; [reflexivity | apply page_cases_length].
Qed.
End BodyLoop.

(** An instruction of page 5 seen from pages 3 and 9. *)
Lemma off_page_instructions_do_nothing_witness :
  _apply_body_redactions default_config
    [ {| instr_start := Some (obj 5 "caption" "LEFT" 100 130);
         instr_end := Some (obj 5 "line" "LEFT" 600 604) |} ]
    3 [] 2200 two_columns (612 / 1700) (792 / 2200) = ([], None) /\
  _apply_body_redactions default_config
    [ {| instr_start := Some (obj 5 "caption" "LEFT" 100 130);
         instr_end := Some (obj 5 "line" "LEFT" 600 604) |} ]
    9 [] 2200 two_columns (612 / 1700) (792 / 2200) = ([], None).
Proof.
  split; apply off_page_instructions_do_nothing; repeat constructor;
    eexists; eexists; (split; [reflexivity |]); (split; [reflexivity |]);
    simpl; lia.
Defined.

(** The sample instruction from caption1 to line1 on page 0. *)
Lemma body_redactions_total_witness :
  snd (_apply_body_redactions default_config
         [ {| instr_start := Some caption1; instr_end := Some line1 |} ]
         0 [header0] 2200 two_columns (612 / 1700) (792 / 2200)) = None /\
  (length (fst (_apply_body_redactions default_config
                  [ {| instr_start := Some caption1; instr_end := Some line1 |} ]
                  0 [header0] 2200 two_columns (612 / 1700) (792 / 2200)))
   <= 2 * length [ {| instr_start := Some caption1; instr_end := Some line1 |} ])%nat.
Proof.
  apply body_redactions_total. repeat constructor; simpl; eauto.
Defined.

(** *** Discrete objects *)

(** The solid box of one object: none unless its label is line, Key,
    brackets or order. *)
Definition solid_box (scale_x scale_y : Q) (o : LayoutObject) : list Call :=
  if solid_label (label o) then
    let '(c0, c1, c2, c3) := int_coords o in
    _add_redaction_box c0 c1 c2 c3 scale_x scale_y
  else [].

Definition header_coords (objs : list LayoutObject) : option (Z * Z * Z * Z) :=
  last (map int_coords
          (List.filter (fun o => (label o =? "header")%string) objs)).

Lemma object_step_eq scale_x scale_y cs hc o :
  object_step scale_x scale_y (cs, hc) o =
  (cs ++ solid_box scale_x scale_y o,
   if (label o =? "header")%string then Some (int_coords o) else hc).
Proof.
  unfold object_step, solid_box.
  destruct (solid_label (label o)); [| now rewrite app_nil_r].
  now destruct (int_coords o) as [[[c0 c1] c2] c3].
Qed.

Lemma object_fold scale_x scale_y (objs : list LayoutObject) :
  forall cs hc,
    fold_left (object_step scale_x scale_y) objs (cs, hc) =
    (cs ++ flat_map (solid_box scale_x scale_y) objs,
     match header_coords objs with
     | Some c => Some c
     | None => hc
     end).
Proof.
  unfold header_coords.
  induction objs as [| o objs IH]; intros cs hc; cbn [fold_left flat_map].
  - now rewrite app_nil_r.
  - rewrite object_step_eq, IH, <- app_assoc. f_equal.
    cbn [List.filter].
    destruct (label o =? "header")%string; [| reflexivity].
    cbn [map]. rewrite last_cons.
    now destruct (last (map int_coords (List.filter _ objs))).
Qed.

(** The discrete-object redaction of a page registers, in order: one solid
    box for each object labelled line, Key, brackets or order whose
    truncated rectangle is not degenerate, and nothing for any other
    label; then the header region.  With a box from the header refiner
    the header region is that box, in the configured fill, with its
    bottom edge lowered to the scaled bottom of the last header object of
    the page if that is lower; without one it is the solid box of the last
    header object, if the page has any. *)
Theorem object_redactions_shape
    (redaction_bbox_for_header :
       nat -> Q -> Q -> Q -> Q -> Q -> Q -> option (Q * Q * Q * Q))
    (config : RedactionConfig) (page_no : nat)
    (objs_on_page : list LayoutObject) (scale_x scale_y : Q) :
  _apply_object_redactions redaction_bbox_for_header config page_no
    objs_on_page scale_x scale_y =
  flat_map (solid_box scale_x scale_y) objs_on_page ++
  match redaction_bbox_for_header page_no
          (header_top_pts config) (header_gap_pts config)
          (header_y_tol config) (header_margin_pts config)
          (header_pad_x config) (header_pad_y config),
        header_coords objs_on_page with
  | Some (x0, y0, x1, y1), Some (_, _, _, c3) =>
      [ add_redact_annot (x0, y0, x1, Py.max y1 (inject_Z c3 * scale_y)%Q)
          (redaction_fill config) ]
  | Some (x0, y0, x1, y1), None =>
      [ add_redact_annot (x0, y0, x1, y1) (redaction_fill config) ]
  | None, Some (c0, c1, c2, c3) =>
      _add_redaction_box c0 c1 c2 c3 scale_x scale_y
  | None, None => []
  end.
Proof.
  unfold _apply_object_redactions. rewrite object_fold. simpl.
  destruct (redaction_bbox_for_header _ _ _ _ _ _ _) as [[[[x0 y0] x1] y1] |];
    destruct (header_coords objs_on_page) as [[[[c0 c1] c2] c3] |];
    try reflexivity.
  - unfold Py.max. destruct (ltb_spec y1 y1) as [H |]; [| reflexivity].
    exfalso. exact (Qlt_irrefl _ H).
  - now rewrite app_nil_r.
Qed.

(** *** Helpers on the calls of the body redaction *)

Lemma do_column_box_window config c l r x1 x2 x3 x4 sx sy a b is_left :
  Forall (fun k => exists w p t g, k = redact_text_lines_in_window w p t g)
    (do_column_box config c l r x1 x2 x3 x4 sx sy a b is_left).
Proof.
  unfold do_column_box. destruct (_ <=? _)%Z; repeat constructor. eauto.
Qed.

Lemma body_windows_rows config instructions page_idx objs img_h cols sx sy :
  Forall (fun k => exists w p t g, k = redact_text_lines_in_window w p t g)
    (fst (_apply_body_redactions config instructions page_idx objs img_h cols
            sx sy)).
Proof.
  unfold _apply_body_redactions.
  destruct (bottom_limits objs img_h) as [L R].
  destruct (column_bounds cols page_idx img_h) as [[[[X1 X2] X3] X4] X5].
  apply for_each_Forall. intros i. unfold _apply_instruction.
  destruct (instr_end i) as [e |]; [| constructor].
  destruct (page_index e <? page_idx)%Z; [constructor |].
  destruct (instr_start i) as [s0 |]; [| constructor].
  destruct (page_index s0 >? page_idx)%Z; [constructor |].
  simpl. unfold page_cases.
  repeat match goal with
         | |- context [if ?b then _ else _] => destruct b
         end;
    repeat apply Forall_app_2; try apply do_column_box_window; constructor.
Qed.

Lemma body_never_raises config page_idx objs img_h cols sx sy instructions :
  Forall instr_complete instructions ->
  snd (_apply_body_redactions config instructions page_idx objs img_h cols
         sx sy) = None.
Proof.
  intros H. unfold _apply_body_redactions.
  destruct (bottom_limits objs img_h) as [L R].
  destruct (column_bounds cols page_idx img_h) as [[[[X1 X2] X3] X4] X5].
  induction H as [| i l [[s0 Es] [e Ee]] _ IH]; simpl; [reflexivity |].
  unfold _apply_instruction at 1. rewrite Ee, Es.
  destruct (page_index e <? page_idx)%Z;
    [| destruct (page_index s0 >? page_idx)%Z];
    destruct (for_each _ l) as [cs' e']; simpl in *; exact IH.
Qed.

(** *** The page loop *)

(** A call that registers a region, as opposed to the burn-in. *)
Definition registers (c : Call) : Prop := c <> apply_redactions.

(** Every entry of [page_dimensions] has non-zero pixel dimensions. *)
Definition pixels_nonzero (page_dimensions : gmap Z (Q * Q * Q * Q)) : Prop :=
  forall i pdf_w pdf_h img_w img_h,
    page_dimensions !! i = Some (pdf_w, pdf_h, img_w, img_h) ->
    ~ (img_w == 0)%Q /\ ~ (img_h == 0)%Q.

Lemma body_calls_register config instructions page_idx objs img_h cols sx sy :
  Forall registers
    (fst (_apply_body_redactions config instructions page_idx objs img_h cols
            sx sy)).
Proof.
  pose proof (body_windows_rows config instructions page_idx objs img_h cols
                sx sy) as H.
  eapply Forall_impl; [exact H |].
  intros c (w & a & b & d & ->). discriminate.
Qed.

Lemma add_redaction_box_registers x1 y1 x2 y2 sx sy :
  Forall registers (_add_redaction_box x1 y1 x2 y2 sx sy).
Proof.
  unfold _add_redaction_box. destruct (_ || _)%bool; repeat constructor.
  discriminate.
Qed.

Lemma solid_boxes_register sx sy (objs : list LayoutObject) :
  Forall registers (flat_map (solid_box sx sy) objs).
Proof.
  induction objs as [| o objs IH]; simpl; [constructor |].
  apply Forall_app_2; [| exact IH]. unfold solid_box.
  destruct (solid_label (label o)); [| constructor].
  destruct (int_coords o) as [[[c0 c1] c2] c3].
  apply add_redaction_box_registers.
Qed.

Lemma object_calls_register hdr config page_no objs sx sy :
  Forall registers (_apply_object_redactions hdr config page_no objs sx sy).
Proof.
  unfold _apply_object_redactions. rewrite object_fold. simpl.
  destruct (hdr _ _ _ _ _ _ _) as [[[[x0 y0] x1] y1] |];
    destruct (header_coords objs) as [[[[c0 c1] c2] c3] |];
    repeat apply Forall_app_2; auto using solid_boxes_register,
      add_redaction_box_registers; repeat constructor; discriminate.
Qed.

Section PageLoop.
Variables
  (redaction_bbox_for_header :
     nat -> Q -> Q -> Q -> Q -> Q -> Q -> option (Q * Q * Q * Q))
  (config : RedactionConfig)
  (redaction_instructions : list RedactionInstruction)
  (global_objects : list LayoutObject)
  (page_dimensions : gmap Z (Q * Q * Q * Q))
  (page_columns_px : gmap Z (Q * Q * Q * Q * Q)).

Let page := redact_page redaction_bbox_for_header config
              redaction_instructions global_objects page_dimensions
              page_columns_px.

(** What [redact_page] may do to a page: leave it, or append calls. *)
Lemma redact_page_extends (page_no : nat) (pg : Page) :
  rect_width (fst (page page_no pg)) = rect_width pg /\
  rect_height (fst (page page_no pg)) = rect_height pg /\
  exists cs, calls (fst (page page_no pg)) = calls pg ++ cs.
Proof.
  unfold page, redact_page.
  destruct (page_dimensions !! Z.of_nat page_no) as [[[[pw ph] iw] ih] |];
    [| simpl; repeat split; exists []; now rewrite app_nil_r].
  destruct (scales pw ph iw ih) as [[sx sy] |];
    [| simpl; repeat split; exists []; now rewrite app_nil_r].
  destruct (_apply_body_redactions _ _ _ _ _ _ _ _) as [cs [e |]]; simpl;
    repeat split; eauto.
Qed.

(** [redact] keeps the number of pages and the size of every page, and
    on every page only appends to the calls already made: nothing
    registered earlier is removed or reordered, whether or not the run
    raises. *)
Theorem redact_only_appends (doc : list Page) :
  Forall2
    (fun before after =>
       rect_width after = rect_width before /\
       rect_height after = rect_height before /\
       exists cs, calls after = calls before ++ cs)
    doc
    (fst (redact redaction_bbox_for_header config redaction_instructions
            global_objects page_dimensions page_columns_px doc)).
Proof.
  unfold redact. generalize 0%nat.
  induction doc as [| pg doc IH]; intros first; simpl; [constructor |].
  pose proof (redact_page_extends first pg) as Hpg. unfold page in Hpg.
  destruct (redact_page _ _ _ _ _ _ first pg) as [pg' [e |]]; simpl in *.
  - constructor; [exact Hpg |].
    clear. induction doc as [| q doc IH]; constructor; auto.
    repeat split. exists []. now rewrite app_nil_r.
  - specialize (IH (S first)).
    destruct (redact_from _ _ _ _ _ _ (S first) doc) as [rest e'].
    constructor; assumption.
Qed.

Hypothesis instructions_complete :
  Forall instr_complete redaction_instructions.
Hypothesis dimensions_nonzero : pixels_nonzero page_dimensions.

Lemma redact_page_commits (page_no : nat) (pg : Page) :
  exists pg',
    page page_no pg = (pg', None) /\
    match page_dimensions !! Z.of_nat page_no with
    | None => pg' = pg
    | Some _ =>
        rect_width pg' = rect_width pg /\ rect_height pg' = rect_height pg /\
        exists cs, calls pg' = calls pg ++ cs ++ [apply_redactions] /\
                   Forall registers cs
    end.
Proof.
  unfold page, redact_page.
  destruct (page_dimensions !! Z.of_nat page_no) as [[[[pw ph] iw] ih] |] eqn:Ed;
    [| eauto].
  destruct (dimensions_nonzero _ _ _ _ _ Ed) as [Hw Hh].
  unfold scales. rewrite (ScaleFacts.div_nonzero _ _ Hw),
    (ScaleFacts.div_nonzero _ _ Hh). simpl.
  set (objs := List.filter _ global_objects).
  pose proof (body_never_raises config (Z.of_nat page_no) objs ih
                page_columns_px (pw / iw)%Q (ph / ih)%Q
                redaction_instructions instructions_complete) as Hn.
  pose proof (body_calls_register config redaction_instructions
                (Z.of_nat page_no) objs ih page_columns_px
                (pw / iw)%Q (ph / ih)%Q) as Hb.
  destruct (_apply_body_redactions _ _ _ _ _ _ _ _) as [cs e]. simpl in *.
  subst e. eexists. split; [reflexivity |]. simpl. repeat split.
  exists (cs ++ _apply_object_redactions redaction_bbox_for_header config
                  page_no objs (pw / iw)%Q (ph / ih)%Q).
  split; [now rewrite <- app_assoc |].
  apply Forall_app_2; [exact Hb | apply object_calls_register].
Qed.

Lemma redact_from_commits (doc : list Page) :
  forall first,
    snd (redact_from redaction_bbox_for_header config redaction_instructions
           global_objects page_dimensions page_columns_px first doc) = None /\
    forall i pg, doc !! i = Some pg ->
      fst (redact_from redaction_bbox_for_header config
             redaction_instructions global_objects page_dimensions
             page_columns_px first doc) !! i =
      Some (fst (page (first + i)%nat pg)).
Proof.
  induction doc as [| pg doc IH]; intros first; simpl.
  - split; [reflexivity | intros i pg' [=]].
  - destruct (redact_page_commits first pg) as (pg' & E & _).
    unfold page in E. rewrite E.
    destruct (IH (S first)) as [IHe IHl].
    destruct (redact_from _ _ _ _ _ _ (S first) doc) as [rest e'].
    simpl in *. split; [exact IHe |].
    intros [| i] q Hq; simpl in *.
    + injection Hq as <-. rewrite Nat.add_0_r. unfold page. now rewrite E.
    + rewrite (IHl i q Hq). do 3 f_equal. lia.
Qed.

(** With complete instructions and non-zero pixel dimensions, [redact]
    raises nothing; a page with dimensions receives its regions and then
    exactly one [apply_redactions], as the last call; a page without
    dimensions is unchanged. *)
Theorem redact_commits_each_page_once (doc : list Page) :
  snd (redact redaction_bbox_for_header config redaction_instructions
         global_objects page_dimensions page_columns_px doc) = None /\
  forall (i : nat) (pg : Page), doc !! i = Some pg ->
    exists pg',
      fst (redact redaction_bbox_for_header config redaction_instructions
             global_objects page_dimensions page_columns_px doc) !! i
        = Some pg' /\
      match page_dimensions !! Z.of_nat i with
      | None => pg' = pg
      | Some _ =>
          rect_width pg' = rect_width pg /\
          rect_height pg' = rect_height pg /\
          exists cs, calls pg' = calls pg ++ cs ++ [apply_redactions] /\
                     Forall registers cs
      end.
Proof.
  unfold redact. destruct (redact_from_commits doc 0) as [He Hl].
  split; [exact He |]. intros i pg Hi.
  destruct (redact_page_commits i pg) as (pg' & E & Hpg).
  exists pg'. split; [| exact Hpg].
  rewrite (Hl i pg Hi). simpl. now rewrite E.
Qed.
End PageLoop.

Lemma letter_dimensions_nonzero : pixels_nonzero letter_dimensions.
Proof.
  intros i pw ph iw ih H. unfold letter_dimensions in H.
  apply lookup_singleton_Some in H as [_ [= <- <- <- <-]].
  split; discriminate.
Qed.

(** The sample instruction on a two-page document whose first page has
    dimensions. *)
Lemma redact_commits_each_page_once_witness :
  snd (redact no_header_text default_config
         [ {| instr_start := Some caption1; instr_end := Some line1 |} ]
         [caption1; line1; key1] letter_dimensions two_columns
         [blank_page; blank_page]) = None /\
  forall (i : nat) (pg : Page), [blank_page; blank_page] !! i = Some pg ->
    exists pg',
      fst (redact no_header_text default_config
             [ {| instr_start := Some caption1; instr_end := Some line1 |} ]
             [caption1; line1; key1] letter_dimensions two_columns
             [blank_page; blank_page]) !! i = Some pg' /\
      match letter_dimensions !! Z.of_nat i with
      | None => pg' = pg
      | Some _ =>
          rect_width pg' = rect_width pg /\
          rect_height pg' = rect_height pg /\
          exists cs, calls pg' = calls pg ++ cs ++ [apply_redactions] /\
                     Forall registers cs
      end.
Proof.
  apply (redact_commits_each_page_once no_header_text default_config
           [ {| instr_start := Some caption1; instr_end := Some line1 |} ]
           [caption1; line1; key1] letter_dimensions two_columns).
  - repeat constructor; simpl; eauto.
  - exact letter_dimensions_nonzero.
Defined.

(** *** Planning, then redacting *)

(** The instructions [plan] returns never make [redact] raise: with
    non-zero pixel dimensions the run over any document completes, every
    page with dimensions being committed once. *)
Theorem plan_then_redact_completes
    (filter_overlapping_boxes : list LayoutObject -> list LayoutObject)
    (redaction_bbox_for_header :
       nat -> Q -> Q -> Q -> Q -> Q -> Q -> option (Q * Q * Q * Q))
    (config : RedactionConfig) (idx first_page : Z)
    (global_objects : list LayoutObject)
    (page_dimensions : gmap Z (Q * Q * Q * Q))
    (page_columns_px : gmap Z (Q * Q * Q * Q * Q)) (doc : list Page) :
  pixels_nonzero page_dimensions ->
  exists out,
    Planner.plan filter_overlapping_boxes idx global_objects first_page
      = Ok out /\
    snd (redact redaction_bbox_for_header config
           (Planner.out_instructions out) global_objects page_dimensions
           page_columns_px doc) = None.
Proof.
  intros Hd. unfold Planner.plan.
  destruct (Planner.collect _) as [hd ft].
  set (objs := Planner.sort_objects (filter_overlapping_boxes global_objects)).
  pose proof (run_inv objs (Planner.init idx) (init_inv idx)) as [_ _ Hi Hs].
  destruct (assign_total _ first_page Hs) as (out & sorted & E & _).
  rewrite E. simpl. eexists. split; [reflexivity |]. simpl.
  unfold redact.
  exact (proj1 (redact_from_commits redaction_bbox_for_header config _
                  global_objects page_dimensions page_columns_px Hi Hd doc 0)).
Qed.

(** The six sample objects of page 0, planned and redacted. *)
Lemma plan_then_redact_completes_witness :
  exists out,
    Planner.plan keep_all 0
      [caption1; headmatter1; line1; key1; caption2; key2] 12 = Ok out /\
    snd (redact no_header_text default_config
           (Planner.out_instructions out)
           [caption1; headmatter1; line1; key1; caption2; key2]
           letter_dimensions two_columns [blank_page]) = None.
Proof.
  apply (plan_then_redact_completes keep_all no_header_text default_config
           0 12 [caption1; headmatter1; line1; key1; caption2; key2]
           letter_dimensions two_columns [blank_page]).
  exact letter_dimensions_nonzero.
Defined.

End RedactorMore.

(** ** More on the opinion splitter *)

Module ExtractorMore.
Import Extractor PlannerFacts RedactorMore Samples.

Section Masks.
Variables (config : RedactionConfig)
  (page_columns_px : gmap Z (Q * Q * Q * Q * Q))
  (page_headers page_footers : gmap Z Q) (scale : Q).





End Masks.

(** *** Masking a whole extracted document *)

Section Masking.
Variables (config : RedactionConfig)
  (page_columns_px : gmap Z (Q * Q * Q * Q * Q))
  (page_headers page_footers : gmap Z Q) (scale : Q).

Definition is_mask (c : Call) : Prop :=
  exists rect, c = add_redact_annot rect (mask_color config).

(** [after] is [before] with masks appended. *)
Definition masked (before after : Page) : Prop :=
  rect_width after = rect_width before /\
  rect_height after = rect_height before /\
  exists masks, calls after = calls before ++ masks /\ Forall is_mask masks.

Lemma masked_refl (pg : Page) : masked pg pg.
Proof. repeat split. exists []. split; [now rewrite app_nil_r | constructor]. Qed.

Lemma masked_trans (a b c : Page) : masked a b -> masked b c -> masked a c.
Proof.
  intros (Hw & Hh & m & Em & Hm) (Hw' & Hh' & m' & Em' & Hm').
  repeat split; try congruence.
  exists (m ++ m'). split; [| now apply Forall_app_2].
  now rewrite Em', Em, app_assoc.
Qed.

Lemma safe_redact_is_mask (rect : Q * Q * Q * Q) :
  Forall is_mask (safe_redact config rect).
Proof.
  unfold safe_redact. destruct rect as [[[x0 y0] x1] y1].
  destruct (_ && _)%bool; repeat constructor. eexists. reflexivity.
Qed.

Lemma start_masks_are_masks p i y c :
  Forall is_mask
    (start_page_masks config page_columns_px page_headers page_footers scale
       p i y c).
Proof.
  unfold start_page_masks.
  destruct (c =? "LEFT")%string; [| destruct (c =? "RIGHT")%string];
    try constructor; apply Forall_app_2; apply safe_redact_is_mask.
Qed.

Lemma end_masks_are_masks p i y c :
  Forall is_mask
    (end_page_masks config page_columns_px page_headers page_footers scale
       p i y c).
Proof.
  unfold end_page_masks.
  destruct (c =? "LEFT")%string; [| destruct (c =? "RIGHT")%string];
    try constructor; try apply Forall_app_2; apply safe_redact_is_mask.
Qed.

Lemma on_page_masked (i : nat) (f : Page -> list Call) (doc : list Page) :
  (forall pg, Forall is_mask (f pg)) ->
  Forall2 masked doc (on_page i f doc).
Proof.
  intros Hf. unfold on_page.
  assert (Hrefl : Forall2 masked doc doc).
  { induction doc; constructor; auto using masked_refl. }
  destruct (doc !! i) as [pg |] eqn:E; [| exact Hrefl].
  rewrite <- (list_insert_id doc i pg E) at 1.
  apply Forall2_insert; [exact Hrefl |].
  repeat split. exists (f pg). auto.
Qed.

Lemma Forall2_masked_trans (a b c : list Page) :
  Forall2 masked a b -> Forall2 masked b c -> Forall2 masked a c.
Proof.
  intros Hab. revert c. induction Hab as [| x y a b Hxy _ IH]; intros c Hbc;
    inversion Hbc; subst; constructor; eauto using masked_trans.
Qed.

Lemma masking_nonempty (p : Page) (doc : list Page)
    (start_pg_idx end_pg_idx : Z) (start_y_px end_y_px : Q)
    (start_col end_col : string) :
  exists res,
    _apply_opinion_masking config page_columns_px page_headers
      page_footers scale (p :: doc) start_pg_idx end_pg_idx start_y_px
      end_y_px start_col end_col = Ok res /\
    Forall2
      (fun before after =>
         rect_width after = rect_width before /\
         rect_height after = rect_height before /\
         exists masks,
           calls after = calls before ++ masks ++ [apply_redactions] /\
           Forall is_mask masks)
      (p :: doc) res.
Proof.
  unfold _apply_opinion_masking.
  set (d0 := p :: doc).
  set (d1 := on_page 0 _ d0). set (d2 := on_page _ _ d1).
  eexists. split; [reflexivity |].
  assert (H : Forall2 masked d0 d2).
  { eapply Forall2_masked_trans; apply on_page_masked; intros pg;
      [apply start_masks_are_masks | apply end_masks_are_masks]. }
  clearbody d2. clear d1. clearbody d0.
  induction H as [| x y a b (Hw & Hh & m & Em & Hm) _ IH]; simpl;
    constructor; auto.
  simpl. repeat split; auto. exists m. split; [| exact Hm].
  now rewrite Em, app_assoc.
Qed.

(** Masking an extracted document raises [IndexError] on an empty
    document and otherwise succeeds, keeps the number and the size of the
    pages, and on each page appends only regions in the mask colour and
    then one [apply_redactions] as the last call. *)
Theorem opinion_masking_shape (doc_out : list Page)
    (start_pg_idx end_pg_idx : Z) (start_y_px end_y_px : Q)
    (start_col end_col : string) :
  match doc_out with
  | [] =>
      _apply_opinion_masking config page_columns_px page_headers page_footers
        scale doc_out start_pg_idx end_pg_idx start_y_px end_y_px
        start_col end_col = Raise IndexError
  | _ =>
      exists res,
        _apply_opinion_masking config page_columns_px page_headers
          page_footers scale doc_out start_pg_idx end_pg_idx start_y_px
          end_y_px start_col end_col = Ok res /\
        Forall2
          (fun before after =>
             rect_width after = rect_width before /\
             rect_height after = rect_height before /\
             exists masks,
               calls after = calls before ++ masks ++ [apply_redactions] /\
               Forall is_mask masks)
          doc_out res
  end.
Proof.
  destruct doc_out as [| p doc]; [reflexivity | apply masking_nonempty].
Qed.

(** On a one-page document the start page and the end page are the same
    page: it receives the start masks, then the end masks, then
    [apply_redactions]. *)
Theorem single_page_masking (p : Page)
    (start_pg_idx end_pg_idx : Z) (start_y_px end_y_px : Q)
    (start_col end_col : string) :
  _apply_opinion_masking config page_columns_px page_headers page_footers
    scale [p] start_pg_idx end_pg_idx start_y_px end_y_px start_col end_col =
  Ok [ issue p
         (start_page_masks config page_columns_px page_headers page_footers
            scale p start_pg_idx start_y_px start_col
          ++ end_page_masks config page_columns_px page_headers page_footers
               scale p end_pg_idx end_y_px end_col
          ++ [apply_redactions]) ].
Proof.
  unfold _apply_opinion_masking, on_page, issue. simpl.
  now rewrite <- !app_assoc.
Qed.
End Masking.

(** *** One file per opinion *)

Section Files.
Variable insert_pdf : list Page -> Z -> Z -> list Page.
Variables (config : RedactionConfig)
  (page_columns_px : gmap Z (Q * Q * Q * Q * Q))
  (page_headers page_footers : gmap Z Q).

(** The file name of a span: its case name, or [opinion_NNN] from its
    number when it has none, with the extension. *)
Definition file_name (item : OpinionSpan) : string :=
  (match span_case_name item with
   | Some nm => nm
   | None => "opinion_" ++ Py.format_0d 3 (span_n item)
   end ++ ".pdf")%string.

(** The span has both ends and the engine copies at least one page for
    it. *)
Definition extractable (src : list Page) (item : OpinionSpan) : Prop :=
  exists s e, span_start item = Some s /\ span_end item = Some e /\
              insert_pdf src (page_index s) (page_index e) <> [].

Lemma split_one_file (src : list Page) (scale : Q) (item : OpinionSpan) :
  extractable src item ->
  exists pages,
    split_one insert_pdf config page_columns_px page_headers page_footers
      src scale item = Ok (file_name item, pages) /\
    length pages =
      length (insert_pdf src
                (default 0%Z (page_index <$> span_start item))
                (default 0%Z (page_index <$> span_end item))).
Proof.
  intros (s0 & e & Es & Ee & Hne). unfold split_one, file_name.
  rewrite Es, Ee. simpl.
  destruct (coords s0) as [[[a b] c] d]. destruct (coords e) as [[[a' b'] c'] d'].
  destruct (insert_pdf src (page_index s0) (page_index e)) as [| p doc];
    [contradiction |].
  destruct (masking_nonempty config page_columns_px page_headers
              page_footers scale p doc (page_index s0) (page_index e)
              b d' (col s0) (col e)) as (res & Er & Hres).
  rewrite Er. simpl. eexists. split; [reflexivity |].
  apply Forall2_length in Hres. simpl in *. lia.
Qed.

(** With a non-zero [dpi], spans that all have a start and an end, and an
    engine that copies at least one page for each, the splitter raises
    nothing and writes exactly one file per span, in the order of the
    spans, named by the span's case name with the extension [.pdf], and
    holding as many pages as the engine copied. *)
Theorem split_writes_one_file_per_span (src : list Page)
    (opinion_spans : list OpinionSpan) :
  ~ (dpi config == 0)%Q ->
  Forall (extractable src) opinion_spans ->
  exists files,
    split_and_mask_opinions insert_pdf config page_columns_px page_headers
      page_footers src opinion_spans = Ok files /\
    map fst files = map file_name opinion_spans /\
    Forall2
      (fun item file =>
         length (snd file) =
         length (insert_pdf src
                   (default 0%Z (page_index <$> span_start item))
                   (default 0%Z (page_index <$> span_end item))))
      opinion_spans files.
Proof.
  intros Hdpi Hall. unfold split_and_mask_opinions, split_scale.
  rewrite (ScaleFacts.div_nonzero _ _ Hdpi). simpl.
  induction Hall as [| item rest Hitem _ (files & E & Hn & Hl)]; simpl.
  - exists []. repeat split; constructor.
  - destruct (split_one_file src (72 / dpi config)%Q item Hitem)
      as (pages & E1 & Hlen).
    rewrite E1. simpl. rewrite E. simpl.
    eexists. split; [reflexivity |]. simpl. split; [now rewrite Hn |].
    constructor; auto.
Qed.
End Files.

(** One sample span over the first page of a two-page source. *)
Lemma split_writes_one_file_per_span_witness :
  exists files,
    split_and_mask_opinions copy_range default_config two_columns ∅ ∅
      [blank_page; blank_page]
      [ {| span_n := 1; span_start := Some caption1; span_end := Some key1;
           span_reason := "caption->Key"; span_case_name := Some "0012-01" |} ]
      = Ok files /\
    map fst files =
      map file_name
        [ {| span_n := 1; span_start := Some caption1; span_end := Some key1;
             span_reason := "caption->Key";
             span_case_name := Some "0012-01" |} ] /\
    Forall2
      (fun item file =>
         length (snd file) =
         length (copy_range [blank_page; blank_page]
                   (default 0%Z (page_index <$> span_start item))
                   (default 0%Z (page_index <$> span_end item))))
      [ {| span_n := 1; span_start := Some caption1; span_end := Some key1;
           span_reason := "caption->Key"; span_case_name := Some "0012-01" |} ]
      files.
Proof.
  apply (split_writes_one_file_per_span copy_range default_config two_columns
           ∅ ∅ [blank_page; blank_page]).
  - discriminate.
  - repeat constructor. exists caption1, key1.
    repeat split. discriminate.
Defined.

End ExtractorMore.
